(** * django-sozluk: the account model of [dictionary/models/author.py]

    A shallow embedding of the [Author], [Memento] and [UserVerification]
    models together with the part of Django's model layer their declarations
    rely on: field cleaning and validators, [Model.save], unique constraints,
    many-to-many [add], and deletion with its [on_delete] rules. *)

From Stdlib Require Import ZArith NArith QArith Lia List Ascii String.
From Stdlib Require Import Decimal DecimalString DecimalZ DecimalPos.
From stdpp Require Import base option list gmap fin_maps fin_sets sorting.

Local Open Scope Z_scope.

(** ** Python values *)

(** A Python [str] is a sequence of Unicode code points. *)
Definition char := N.
Definition str := list char.

(** ASCII literals of the source, as code points. *)
Fixpoint lit (s : string) : str :=
  match s with
  | EmptyString => []
  | String c s' => N_of_ascii c :: lit s'
  end.

Definition LF : char := 10%N.

(** A [datetime] is a number of microseconds on the time line, a
    [timedelta] a difference of two. *)
Definition datetime := Z.
Definition timedelta := Z.

Definition timedelta_hours (h : Z) : timedelta := h * 3600 * 1000000.
Definition timedelta_days (d : Z) : timedelta := d * 24 * 3600 * 1000000.

(** Exceptions of the model layer. A [ValidationError] carries the codes of
    the errors it collects. *)
Inductive constraint :=
| UNIQUE (name : string)
| FOREIGN_KEY (column : string).

Inductive exn :=
| ValidationError (codes : list string)
| IntegrityError (violated : constraint)
| ProtectedError
| ValueError.

Definition result (A : Type) : Type := exn + A.

(** [e] is the violation of the unique constraint [name]. *)
Definition violates (name : string) (e : exn) : bool :=
  match e with
  | IntegrityError (UNIQUE n) => String.eqb n name
  | _ => false
  end.

(** ** Regular expressions

    The fragment of Python's [re] the nick pattern is written in, with the
    node names of [sre_parse]. Without [re.MULTILINE], [^] matches only at
    the start of the string and [$] at the end of the string or just before
    a newline that ends it. *)
Module re.

Inductive node :=
| AT_BEGINNING
| AT_END
| MAX_REPEAT_1 (ranges : list (char * char)).

Definition pattern := list node.

Definition in_range (c : char) (r : char * char) : bool :=
  (fst r <=? c)%N && (c <=? snd r)%N.

Definition IN (ranges : list (char * char)) (c : char) : bool :=
  existsb (in_range c) ranges.

Definition at_end (s : str) : bool :=
  match s with
  | [] => true
  | [c] => (c =? LF)%N
  | _ => false
  end.

(** [matches p at_start s]: [p] matches a prefix of [s], the text from the
    current position on; [at_start] tells whether that position is 0. *)
Fixpoint matches (p : pattern) (at_start : bool) (s : str) : bool :=
  match p with
  | [] => true
  | AT_BEGINNING :: p' => at_start && matches p' at_start s
  | AT_END :: p' => at_end s && matches p' at_start s
  | MAX_REPEAT_1 ranges :: p' =>
      (fix rep (s : str) : bool :=
         match s with
         | [] => false
         | c :: t => IN ranges c && (rep t || matches p' false t)
         end) s
  end.

Fixpoint search_from (p : pattern) (at_start : bool) (s : str) : bool :=
  matches p at_start s ||
  match s with
  | [] => false
  | _ :: t => search_from p false t
  end.

(** [re.search]: a match at some position of the string. *)
Definition search (p : pattern) (s : str) : bool := search_from p true s.

End re.

(** ** Validators *)

(** [RegexValidator.__call__] with [inverse_match = False]: the value is
    invalid when the pattern is not found in it. *)
Definition RegexValidator (regex : re.pattern) (value : str) : list string :=
  if re.search regex value then [] else ["invalid"%string].

(** [MaxLengthValidator]: [len(value) > limit_value] is an error. *)
Definition MaxLengthValidator (limit_value : Z) (value : str) : list string :=
  if limit_value <? Z.of_nat (length value) then ["max_length"%string] else [].

Module AuthorNickValidator.

(** [regex = r'^[a-z\ ]+$'] *)
Definition regex : re.pattern :=
  [re.AT_BEGINNING;
   re.MAX_REPEAT_1 [(N_of_ascii "a", N_of_ascii "z"); (N_of_ascii " ", N_of_ascii " ")];
   re.AT_END].

Definition call (value : str) : list string := RegexValidator regex value.

End AuthorNickValidator.

(** The alphabet of the nick pattern: lowercase letters and the space. *)
Definition nick_char (c : char) : bool :=
  ((97 <=? c)%N && (c <=? 122)%N) || (c =? 32)%N.

(** The strings the nick pattern is found in: a non-empty run of characters
    of the alphabet, then the end of the string or one final newline. *)
Definition nick_shape (s : str) : Prop :=
  exists body : str,
    body <> [] /\ Forall (fun c => nick_char c = true) body /\
    (s = body \/ s = body ++ [LF]).

(** ** Field cleaning *)

(** [Field.run_validators]: an empty value skips the validators; otherwise
    every validator runs and the errors are collected. *)
Definition run_validators (validators : list (str -> list string)) (value : str)
  : result unit :=
  match value with
  | [] => inr tt
  | _ =>
      match flat_map (fun v => v value) validators with
      | [] => inr tt
      | errors => inl (ValidationError errors)
      end
  end.

(** [Field.validate] for a field with [blank=False] and no choices. *)
Definition validate_required (value : str) : result unit :=
  match value with
  | [] => inl (ValidationError ["blank"%string])
  | _ => inr tt
  end.

Module username_field.

Definition max_length : Z := 50.

(** [validators=[nick_validator]]; [CharField] appends the length check. *)
Definition validators : list (str -> list string) :=
  [AuthorNickValidator.call; MaxLengthValidator max_length].

(** [Field.clean]: [validate], then [run_validators]. *)
Definition clean (value : str) : result str :=
  match validate_required value with
  | inl e => inl e
  | inr _ =>
      match run_validators validators value with
      | inl e => inl e
      | inr _ => inr value
      end
  end.

End username_field.

(** ** Models *)

(** [models.Model]: an instance carries its primary key, [None] until the
    row is inserted. *)
Class Model (A : Type) := {
  pk : A -> option Z;
  with_pk : Z -> A -> A
}.

Module Entry.

(** The columns of [Entry] this file reads; the model is declared in
    [models/entry.py]. [vote_rate] is a [Decimal]. *)
Record t := {
  id : option Z;
  author : Z;
  vote_rate : Q;
  date_created : datetime
}.

#[global] Instance model : Model t := {
  pk := id;
  with_pk k e :=
    {| id := Some k; author := author e; vote_rate := vote_rate e;
       date_created := date_created e |}
}.

End Entry.

Module Author.

(** The choices of the three choice fields, by the names of their codes. *)
Inductive GENDERS := MAN | WOMAN | OTHER | UNKNOWN.
Inductive APPLICATION_STATUS := PENDING | ON_HOLD | APPROVED.
Inductive MESSAGE_PREFERENCE := DISABLED | ALL_USERS | AUTHOR_ONLY | FOLLOWING_ONLY.

Definition TEN : Z := 10.
Definition THIRTY : Z := 30.
Definition FIFTY : Z := 50.
Definition SEVENTYFIVE : Z := 75.
Definition ONEHUNDRED : Z := 100.

(** The columns [Author] declares, in the order of the source; the
    many-to-many fields are tables of the database. The columns inherited
    from [AbstractUser] that the class does not redeclare play no part in
    what follows. *)
Record t := {
  id : option Z;
  username : str;
  birth_date : option Z;
  gender : GENDERS;
  is_novice : bool;
  is_active : bool;
  application_status : APPLICATION_STATUS;
  application_date : option datetime;
  last_activity : option datetime;
  banned_until : option datetime;
  entries_per_page : Z;
  topics_per_page : Z;
  message_preference : MESSAGE_PREFERENCE;
  pinned_entry : option Z;
  email : str
}.

Definition set_id (v : option Z) (a : t) : t :=
  {| id := v; username := username a; birth_date := birth_date a;
     gender := gender a; is_novice := is_novice a; is_active := is_active a;
     application_status := application_status a;
     application_date := application_date a;
     last_activity := last_activity a; banned_until := banned_until a;
     entries_per_page := entries_per_page a;
     topics_per_page := topics_per_page a;
     message_preference := message_preference a;
     pinned_entry := pinned_entry a; email := email a |}.

Definition set_pinned_entry (v : option Z) (a : t) : t :=
  {| id := id a; username := username a; birth_date := birth_date a;
     gender := gender a; is_novice := is_novice a; is_active := is_active a;
     application_status := application_status a;
     application_date := application_date a;
     last_activity := last_activity a; banned_until := banned_until a;
     entries_per_page := entries_per_page a;
     topics_per_page := topics_per_page a;
     message_preference := message_preference a;
     pinned_entry := v; email := email a |}.

#[global] Instance model : Model t := {
  pk := id;
  with_pk k := set_id (Some k)
}.

(** A new instance with the declared defaults. *)
Definition new (username email : str) : t :=
  {| id := None; username := username; birth_date := None;
     gender := UNKNOWN; is_novice := true; is_active := false;
     application_status := ON_HOLD; application_date := None;
     last_activity := None; banned_until := None;
     entries_per_page := TEN; topics_per_page := FIFTY;
     message_preference := ALL_USERS; pinned_entry := None;
     email := email |}.

End Author.

Module Memento.

Record t := {
  id : option Z;
  body : option str;
  holder : Z;
  patient : Z
}.

#[global] Instance model : Model t := {
  pk := id;
  with_pk k m :=
    {| id := Some k; body := body m; holder := holder m; patient := patient m |}
}.

End Memento.

Module UserVerification.

Record t := {
  id : option Z;
  author : Z;
  verification_token : str;
  new_email : option str;
  expiration_date : datetime
}.

#[global] Instance model : Model t := {
  pk := id;
  with_pk k v :=
    {| id := Some k; author := author v;
       verification_token := verification_token v;
       new_email := new_email v; expiration_date := expiration_date v |}
}.

End UserVerification.

(** ** The database *)

(** A table: its rows by primary key, and the largest key handed out so far
    (the counter behind an auto-incremented key). *)
Record table (A : Type) := Table {
  rows : gmap Z A;
  sequence : Z
}.
Arguments Table {A} _ _.
Arguments rows {A} _.
Arguments sequence {A} _.

Definition empty_table {A} : table A := Table ∅ 0.

Definition max_pk {A} (m : gmap Z A) : Z :=
  foldr Z.max 0 ((map_to_list m).*1).

(** The key of an insert that gives none: past the counter and past every
    key in the table. *)
Definition next_pk {A} (tbl : table A) : Z :=
  Z.max (sequence tbl) (max_pk (rows tbl)) + 1.

(** [QuerySet.delete] of the rows selected by [sel]. *)
Definition delete_where {A} (sel : A -> bool) (tbl : table A) : table A :=
  Table (filter (fun kv => sel kv.2 = false) (rows tbl)) (sequence tbl).

(** [QuerySet.exists]. *)
Definition QuerySet_exists {A} (qs : gmap Z A) : bool :=
  negb (Nat.eqb (size qs) 0).

(** A unique column: some other row holds the value of [self]. *)
Definition taken {A B} `{EqDecision B} (col : A -> B)
    (others : gmap Z A) (self : A) : bool :=
  bool_decide (map_Exists (fun _ r => col r = col self) others).

(** A unique nullable column: [NULL]s never collide. *)
Definition taken_nullable {A B} `{EqDecision B} (col : A -> option B)
    (others : gmap Z A) (self : A) : bool :=
  match col self with
  | None => false
  | Some _ => taken col others self
  end.

(** [Model.save] with its default arguments. An instance with a key updates
    the row of that key when there is one and is inserted under that key
    otherwise; an instance without a key is inserted under the next one.
    [check] gives the constraint the write would violate, looking at the
    other rows of the table. A violation raises and leaves the table as it
    was. *)
Definition Model_save {A} `{Model A}
    (check : gmap Z A -> A -> option constraint)
    (tbl : table A) (self : A) : table A * result A :=
  let write k self' :=
    match check (delete k (rows tbl)) self' with
    | Some c => (tbl, inl (IntegrityError c))
    | None =>
        (Table (<[k := self']> (rows tbl)) (Z.max (sequence tbl) k), inr self')
    end in
  match pk self with
  | Some k => write k self
  | None => let k := next_pk tbl in write k (with_pk k self)
  end.

(** The key [Model.save] writes an instance under, and the instance it
    writes. *)
Definition save_key {A} `{Model A} (tbl : table A) (self : A) : Z :=
  match pk self with Some k => k | None => next_pk tbl end.

Definition saved {A} `{Model A} (tbl : table A) (self : A) : A :=
  match pk self with Some _ => self | None => with_pk (next_pk tbl) self end.

(** [Model.delete] of the row with key [k], for a table nothing refers to. *)
Definition Model_delete {A} (tbl : table A) (k : Z) : table A :=
  Table (delete k (rows tbl)) (sequence tbl).

Record DB := {
  Author_objects : table Author.t;
  Author_following : gset (Z * Z);
  Author_blocked : gset (Z * Z);
  Author_favorite_entries : gset (Z * Z);
  Author_upvoted_entries : gset (Z * Z);
  Author_downvoted_entries : gset (Z * Z);
  Author_following_categories : gset (Z * Z);
  Memento_objects : table Memento.t;
  UserVerification_objects : table UserVerification.t;
  Entry_objects : table Entry.t;
  Category_objects : gset Z
}.

Definition empty_db : DB :=
  {| Author_objects := empty_table; Author_following := ∅;
     Author_blocked := ∅; Author_favorite_entries := ∅;
     Author_upvoted_entries := ∅; Author_downvoted_entries := ∅;
     Author_following_categories := ∅; Memento_objects := empty_table;
     UserVerification_objects := empty_table; Entry_objects := empty_table;
     Category_objects := ∅ |}.

Definition set_Author_objects (v : table Author.t) (db : DB) : DB :=
  {| Author_objects := v; Author_following := Author_following db;
     Author_blocked := Author_blocked db;
     Author_favorite_entries := Author_favorite_entries db;
     Author_upvoted_entries := Author_upvoted_entries db;
     Author_downvoted_entries := Author_downvoted_entries db;
     Author_following_categories := Author_following_categories db;
     Memento_objects := Memento_objects db;
     UserVerification_objects := UserVerification_objects db;
     Entry_objects := Entry_objects db;
     Category_objects := Category_objects db |}.

Definition set_Author_following_categories (v : gset (Z * Z)) (db : DB) : DB :=
  {| Author_objects := Author_objects db; Author_following := Author_following db;
     Author_blocked := Author_blocked db;
     Author_favorite_entries := Author_favorite_entries db;
     Author_upvoted_entries := Author_upvoted_entries db;
     Author_downvoted_entries := Author_downvoted_entries db;
     Author_following_categories := v;
     Memento_objects := Memento_objects db;
     UserVerification_objects := UserVerification_objects db;
     Entry_objects := Entry_objects db;
     Category_objects := Category_objects db |}.

Definition set_Memento_objects (v : table Memento.t) (db : DB) : DB :=
  {| Author_objects := Author_objects db; Author_following := Author_following db;
     Author_blocked := Author_blocked db;
     Author_favorite_entries := Author_favorite_entries db;
     Author_upvoted_entries := Author_upvoted_entries db;
     Author_downvoted_entries := Author_downvoted_entries db;
     Author_following_categories := Author_following_categories db;
     Memento_objects := v;
     UserVerification_objects := UserVerification_objects db;
     Entry_objects := Entry_objects db;
     Category_objects := Category_objects db |}.

Definition set_UserVerification_objects (v : table UserVerification.t) (db : DB) : DB :=
  {| Author_objects := Author_objects db; Author_following := Author_following db;
     Author_blocked := Author_blocked db;
     Author_favorite_entries := Author_favorite_entries db;
     Author_upvoted_entries := Author_upvoted_entries db;
     Author_downvoted_entries := Author_downvoted_entries db;
     Author_following_categories := Author_following_categories db;
     Memento_objects := Memento_objects db;
     UserVerification_objects := v;
     Entry_objects := Entry_objects db;
     Category_objects := Category_objects db |}.

Definition set_Entry_objects (v : table Entry.t) (db : DB) : DB :=
  {| Author_objects := Author_objects db; Author_following := Author_following db;
     Author_blocked := Author_blocked db;
     Author_favorite_entries := Author_favorite_entries db;
     Author_upvoted_entries := Author_upvoted_entries db;
     Author_downvoted_entries := Author_downvoted_entries db;
     Author_following_categories := Author_following_categories db;
     Memento_objects := Memento_objects db;
     UserVerification_objects := UserVerification_objects db;
     Entry_objects := v;
     Category_objects := Category_objects db |}.

Definition set_Category_objects (v : gset Z) (db : DB) : DB :=
  {| Author_objects := Author_objects db; Author_following := Author_following db;
     Author_blocked := Author_blocked db;
     Author_favorite_entries := Author_favorite_entries db;
     Author_upvoted_entries := Author_upvoted_entries db;
     Author_downvoted_entries := Author_downvoted_entries db;
     Author_following_categories := Author_following_categories db;
     Memento_objects := Memento_objects db;
     UserVerification_objects := UserVerification_objects db;
     Entry_objects := Entry_objects db;
     Category_objects := v |}.

Definition has_pk {A} (tbl : table A) (k : Z) : bool :=
  bool_decide (is_Some (rows tbl !! k)).

(** ** Author *)

(** What the database enforces on a row of [Author]: [unique=True] on
    [username] and on [email], the one-to-one [pinned_entry] (unique where
    not null), and that a pinned entry exists. Which constraint is named
    when a write violates several is the backend's choice; here the order
    is that of the list. *)
Definition Author_check (db : DB) (others : gmap Z Author.t) (self : Author.t)
  : option constraint :=
  if taken Author.username others self then Some (UNIQUE "username")
  else if taken Author.email others self then Some (UNIQUE "email")
  else if taken_nullable Author.pinned_entry others self
  then Some (UNIQUE "pinned_entry")
  else match Author.pinned_entry self with
       | Some e =>
           if has_pk (Entry_objects db) e then None
           else Some (FOREIGN_KEY "pinned_entry")
       | None => None
       end.

(** [manager.add( *objs)] of a many-to-many field: the links from [src] that
    are not there yet are inserted, in one call. *)
Definition m2m_add (links : gset (Z * Z)) (src : Z) (objs : list Z) : gset (Z * Z) :=
  links ∪ list_to_set ((fun o => (src, o)) <$> objs).

(** [Author.save] *)
Definition Author_save (db : DB) (self : Author.t) : DB * result Author.t :=
  let created := bool_decide (pk self = None) in
  match Model_save (Author_check db) (Author_objects db) self with
  | (tbl, inl e) => (set_Author_objects tbl db, inl e)
  | (tbl, inr self) =>
      let db := set_Author_objects tbl db in
      if created then
        let categories_list := elements (Category_objects db) in
        match pk self with
        | Some k =>
            (set_Author_following_categories
               (m2m_add (Author_following_categories db) k categories_list) db,
             inr self)
        | None => (db, inl ValueError)
        end
      else (db, inr self)
  end.

(** [UserVerification.objects.filter(author=a)] *)
Definition tokens_of (db : DB) (a : Z) : gmap Z UserVerification.t :=
  filter (fun kv => UserVerification.author kv.2 = a)
         (rows (UserVerification_objects db)).

(** [self.userverification_set]: the reverse side of
    [UserVerification.author]; empty for an instance without a key. *)
Definition userverification_set (db : DB) (self : Author.t)
  : gmap Z UserVerification.t :=
  match pk self with
  | Some k => tokens_of db k
  | None => ∅
  end.

(** [self.following_categories.all()], by key. *)
Definition following_categories (db : DB) (k : Z) : gset Z :=
  set_map snd (filter (fun l => l.1 = k) (Author_following_categories db)).

(** The spec's freshness of a token: the time passed since the point the
    token carries is at most 24 hours. *)
Definition fresh (now : datetime) (v : UserVerification.t) : Prop :=
  now - UserVerification.expiration_date v <= timedelta_hours 24.

(** [Author.email_confirmed], with [now] the value of [timezone.now()]. *)
Definition email_confirmed (db : DB) (now : datetime) (self : Author.t) : bool :=
  if QuerySet_exists
       (filter (fun kv => now - timedelta_hours 24 <= UserVerification.expiration_date kv.2)
               (userverification_set db self))
  then false
  else true.

(** ** UserVerification *)

Definition UserVerification_check (db : DB)
    (others : gmap Z UserVerification.t) (self : UserVerification.t)
  : option constraint :=
  if has_pk (Author_objects db) (UserVerification.author self) then None
  else Some (FOREIGN_KEY "author").

(** [UserVerification.objects.filter(author=a).delete()] *)
Definition UserVerification_delete_of (db : DB) (a : Z) : DB :=
  set_UserVerification_objects
    (delete_where (fun v => bool_decide (UserVerification.author v = a))
                  (UserVerification_objects db)) db.

(** [UserVerification.save]: the rows of the author are deleted, then the
    instance is saved. The instance holds its author, so [self.author] is
    read without a query; an author whose row is gone shows when the row
    is written. *)
Definition UserVerification_save (db : DB) (self : UserVerification.t)
  : DB * result UserVerification.t :=
  let db := UserVerification_delete_of db (UserVerification.author self) in
  let '(tbl, r) :=
    Model_save (UserVerification_check db) (UserVerification_objects db) self in
  (set_UserVerification_objects tbl db, r).

(** At most one verification row per account. *)
Definition one_token (db : DB) : Prop :=
  forall a, (size (tokens_of db a) <= 1)%nat.

(** The verification flow consumes a token by deleting its row. *)
Definition UserVerification_delete (db : DB) (k : Z) : DB :=
  set_UserVerification_objects (Model_delete (UserVerification_objects db) k) db.

(** ** Memento *)

(** The columns of [unique_memento]. *)
Definition pair (m : Memento.t) : Z * Z := (Memento.holder m, Memento.patient m).

(** [constraints = [UniqueConstraint(fields=['holder', 'patient'],
    name='unique_memento')]], and both accounts exist. *)
Definition Memento_check (db : DB) (others : gmap Z Memento.t) (self : Memento.t)
  : option constraint :=
  if taken pair others self
  then Some (UNIQUE "unique_memento")
  else if negb (has_pk (Author_objects db) (Memento.holder self))
  then Some (FOREIGN_KEY "holder")
  else if negb (has_pk (Author_objects db) (Memento.patient self))
  then Some (FOREIGN_KEY "patient")
  else None.

(** [Memento] inherits [Model.save]. *)
Definition Memento_save (db : DB) (self : Memento.t) : DB * result Memento.t :=
  let '(tbl, r) := Model_save (Memento_check db) (Memento_objects db) self in
  (set_Memento_objects tbl db, r).

Definition Memento_delete (db : DB) (k : Z) : DB :=
  set_Memento_objects (Model_delete (Memento_objects db) k) db.

(** [Memento.objects.filter(holder=h, patient=p)] *)
Definition mementos_of (db : DB) (h p : Z) : gmap Z Memento.t :=
  filter (fun kv => Memento.holder kv.2 = h /\ Memento.patient kv.2 = p)
         (rows (Memento_objects db)).

(** [Memento.objects.filter(holder=h, patient=p).first()]: the instance of
    the row the holder keeps about the patient, if there is one; it carries
    the key of its row. *)
Definition Memento_get (db : DB) (holder patient : Z) : option Memento.t :=
  (fun kv => with_pk kv.1 kv.2) <$> head (map_to_list (mementos_of db holder patient)).

(** Modelled from the spec: the write path of a memento lives in the views,
    which are not under src/. It inserts the row of the pair and, when the
    pair's uniqueness constraint fires, turns the write into an update of the
    body of the row that is there. *)
Definition Memento_upsert (db : DB) (holder patient : Z) (body : option str)
  : DB * result Memento.t :=
  let fresh :=
    {| Memento.id := None; Memento.body := body;
       Memento.holder := holder; Memento.patient := patient |} in
  match Memento_save db fresh with
  | (db', inl e) =>
      if violates "unique_memento" e then
        match Memento_get db' holder patient with
        | Some m =>
            Memento_save db'
              {| Memento.id := Memento.id m; Memento.body := body;
                 Memento.holder := holder; Memento.patient := patient |}
        | None => (db', inl e)
        end
      else (db', inl e)
  | (db', inr m) => (db', inr m)
  end.

(** ** Neighbouring models *)

(** Modelled from the spec: [models/entry.py] is not under src/. An entry is
    written as a plain row whose author exists. *)
Definition Entry_check (db : DB) (others : gmap Z Entry.t) (self : Entry.t)
  : option constraint :=
  if has_pk (Author_objects db) (Entry.author self) then None
  else Some (FOREIGN_KEY "author").

Definition Entry_save (db : DB) (self : Entry.t) : DB * result Entry.t :=
  let '(tbl, r) := Model_save (Entry_check db) (Entry_objects db) self in
  (set_Entry_objects tbl db, r).

(** Modelled from the spec: [models/category.py] is not under src/. Creating
    a category adds its row and nothing else. *)
Definition Category_create (db : DB) (c : Z) : DB :=
  set_Category_objects ({[c]} ∪ Category_objects db) db.

(** ** Deletion *)

(** The rules a required reference can declare for the deletion of its
    target. *)
Inductive on_delete := CASCADE | PROTECT.

Definition pins (es : gset Z) (a : Author.t) : bool :=
  match Author.pinned_entry a with
  | Some e => bool_decide (e ∈ es)
  | None => false
  end.

(** [on_delete=models.SET_NULL] of [pinned_entry]. *)
Definition unpin (es : gset Z) (a : Author.t) : Author.t :=
  if pins es a then Author.set_pinned_entry None a else a.

(** Deleting the entries [es]: [pinned_entry] is [SET_NULL], the rows of the
    many-to-many tables that point to a deleted entry go with it. *)
Definition Entry_delete_collected (es : gset Z) (db : DB) : DB :=
  {| Author_objects :=
       Table (unpin es <$> rows (Author_objects db))
             (sequence (Author_objects db));
     Author_following := Author_following db;
     Author_blocked := Author_blocked db;
     Author_favorite_entries :=
       filter (fun l => l.2 ∉ es) (Author_favorite_entries db);
     Author_upvoted_entries :=
       filter (fun l => l.2 ∉ es) (Author_upvoted_entries db);
     Author_downvoted_entries :=
       filter (fun l => l.2 ∉ es) (Author_downvoted_entries db);
     Author_following_categories := Author_following_categories db;
     Memento_objects := Memento_objects db;
     UserVerification_objects := UserVerification_objects db;
     Entry_objects :=
       Table (filter (fun kv => kv.1 ∉ es) (rows (Entry_objects db)))
             (sequence (Entry_objects db));
     Category_objects := Category_objects db |}.

(** [Entry.delete] *)
Definition Entry_delete (db : DB) (e : Z) : DB :=
  Entry_delete_collected {[e]} db.

(** Deleting the account [b], the entries [es] having been collected with
    it: [Memento.holder], [Memento.patient] and [UserVerification.author]
    are [CASCADE], and so are both ends of every many-to-many table. *)
Definition Author_delete_collected (b : Z) (es : gset Z) (db : DB) : DB :=
  let db := Entry_delete_collected es db in
  {| Author_objects := Model_delete (Author_objects db) b;
     Author_following :=
       filter (fun l => l.1 ≠ b /\ l.2 ≠ b) (Author_following db);
     Author_blocked :=
       filter (fun l => l.1 ≠ b /\ l.2 ≠ b) (Author_blocked db);
     Author_favorite_entries :=
       filter (fun l => l.1 ≠ b) (Author_favorite_entries db);
     Author_upvoted_entries :=
       filter (fun l => l.1 ≠ b) (Author_upvoted_entries db);
     Author_downvoted_entries :=
       filter (fun l => l.1 ≠ b) (Author_downvoted_entries db);
     Author_following_categories :=
       filter (fun l => l.1 ≠ b) (Author_following_categories db);
     Memento_objects :=
       delete_where
         (fun m => bool_decide (Memento.holder m = b \/ Memento.patient m = b))
         (Memento_objects db);
     UserVerification_objects :=
       delete_where (fun v => bool_decide (UserVerification.author v = b))
                    (UserVerification_objects db);
     Entry_objects := Entry_objects db;
     Category_objects := Category_objects db |}.

(** The order of [order_by("-vote_rate")]: larger rates first. *)
Definition vote_rate_desc (e1 e2 : Entry.t) : Prop :=
  (Entry.vote_rate e2 <= Entry.vote_rate e1)%Q.

#[global] Instance vote_rate_desc_dec : RelDecision vote_rate_desc.
Proof.
  intros e1 e2. unfold vote_rate_desc.
  destruct (Qlt_le_dec (Entry.vote_rate e1) (Entry.vote_rate e2)) as [Hlt|Hle].
  - right. intros Hle. exact (Qlt_not_le _ _ Hlt Hle).
  - left. exact Hle.
Defined.

(** [Entry.objects.filter(author=b)] *)
Definition entries_of (db : DB) (b : Z) : gmap Z Entry.t :=
  filter (fun kv => Entry.author kv.2 = b) (rows (Entry_objects db)).

Section Site.

(** Declared outside this file: the rule of [Entry.author] for the
    deletion of the author, and the filter of the manager
    [Entry.objects_published]. *)
Variable Entry_author_on_delete : on_delete.
Variable objects_published : Entry.t -> bool.

(** [Author.delete] *)
Definition Author_delete (db : DB) (b : Z) : DB * result unit :=
  let es := dom (entries_of db b) in
  match Entry_author_on_delete with
  | CASCADE => (Author_delete_collected b es db, inr tt)
  | PROTECT =>
      if bool_decide (es = ∅) then (Author_delete_collected b ∅ db, inr tt)
      else (db, inl ProtectedError)
  end.

(** [Entry.objects_published.filter(author=self)] *)
Definition published_by (db : DB) (self : Author.t) : list Entry.t :=
  match pk self with
  | Some k =>
      (map_to_list
         (filter (fun kv => objects_published kv.2 = true /\ Entry.author kv.2 = k)
                 (rows (Entry_objects db)))).*2
  | None => []
  end.

(** [Author.entry_nice]: the first row of the published entries of the
    account in the order of [-vote_rate], when its rate is above 1. *)
Definition entry_nice (db : DB) (self : Author.t) : option Entry.t :=
  match head (merge_sort vote_rate_desc (published_by db self)) with
  | Some entry =>
      if Qlt_le_dec 1 (Entry.vote_rate entry) then Some entry else None
  | None => None
  end.

(** ** Histories *)

Inductive op :=
| AuthorSave (self : Author.t)
| AuthorDelete (k : Z)
| UserVerificationSave (self : UserVerification.t)
| UserVerificationDelete (k : Z)
| MementoSave (self : Memento.t)
| MementoDelete (k : Z)
| MementoUpsert (holder patient : Z) (body : option str)
| EntrySave (self : Entry.t)
| EntryDelete (k : Z)
| CategoryCreate (c : Z).

Definition exec (db : DB) (o : op) : DB :=
  match o with
  | AuthorSave self => (Author_save db self).1
  | AuthorDelete k => (Author_delete db k).1
  | UserVerificationSave self => (UserVerification_save db self).1
  | UserVerificationDelete k => UserVerification_delete db k
  | MementoSave self => (Memento_save db self).1
  | MementoDelete k => Memento_delete db k
  | MementoUpsert h p body => (Memento_upsert db h p body).1
  | EntrySave self => (Entry_save db self).1
  | EntryDelete k => Entry_delete db k
  | CategoryCreate c => Category_create db c
  end.

Definition run (ops : list op) : DB := foldl exec empty_db ops.

End Site.

(** ** Labels *)

(** [str] of an [int]: the decimal digits, after a minus sign when the
    number is negative. *)
Definition str_of_int (z : Z) : str :=
  lit (NilZero.string_of_int (Z.to_int z)).

(** The characters of a printed number: a minus sign or a digit. *)
Definition numeral_char (c : char) : Prop :=
  c = 45%N \/ (48 <= c <= 57)%N.

(** [Author.__str__]: [f"{self.username}:{self.id}"]; the [id] of an
    instance that has none reads [None]. *)
Definition Author_str (self : Author.t) : str :=
  Author.username self ++ lit ":" ++
  match Author.id self with
  | Some k => str_of_int k
  | None => lit "None"
  end.

(** ** Statistics of an account *)

(** The order of [latest("date_created")]: later dates first. *)
Definition date_created_desc (e1 e2 : Entry.t) : Prop :=
  Entry.date_created e2 <= Entry.date_created e1.

#[global] Instance date_created_desc_dec : RelDecision date_created_desc.
Proof. intros e1 e2. unfold date_created_desc. apply _. Defined.

Section Statistics.

Variable objects_published : Entry.t -> bool.

(** [Entry.objects_published.filter(author=self).count()] *)
Definition entry_count (db : DB) (self : Author.t) : nat :=
  length (published_by objects_published db self).

(** [Entry.objects_published.filter(author=self, date_created__gte=since)] *)
Definition published_since (db : DB) (self : Author.t) (since : datetime)
  : list Entry.t :=
  filter (fun e => since <= Entry.date_created e)
         (published_by objects_published db self).

(** [Author.entry_count_month], [entry_count_week] and [entry_count_day],
    with [now] the value of [timezone.now()]. *)
Definition entry_count_month (db : DB) (now : datetime) (self : Author.t) : nat :=
  length (published_since db self (now - timedelta_days 30)).

Definition entry_count_week (db : DB) (now : datetime) (self : Author.t) : nat :=
  length (published_since db self (now - timedelta_days 7)).

Definition entry_count_day (db : DB) (now : datetime) (self : Author.t) : nat :=
  length (published_since db self (now - timedelta_days 1)).

(** [Author.last_entry_date]: the date of the first row in the order of
    [latest("date_created")]; [Entry.DoesNotExist] becomes [None]. *)
Definition last_entry_date (db : DB) (self : Author.t) : option datetime :=
  match head (merge_sort date_created_desc (published_by objects_published db self)) with
  | Some entry => Some (Entry.date_created entry)
  | None => None
  end.

End Statistics.

(** [Author.followers]: [Author.objects.filter(following=self)], the
    accounts with a row of [following] that ends at [self]. For an instance
    without a key the lookup compares with [NULL] over the outer join, which
    selects the accounts that follow nobody. *)
Definition followers (db : DB) (self : Author.t) : gmap Z Author.t :=
  match pk self with
  | Some k =>
      filter (fun kv => (kv.1, k) ∈ Author_following db) (rows (Author_objects db))
  | None =>
      filter (fun kv => set_Forall (fun l => l.1 <> kv.1) (Author_following db))
             (rows (Author_objects db))
  end.

Definition set_Author_following (v : gset (Z * Z)) (db : DB) : DB :=
  {| Author_objects := Author_objects db; Author_following := v;
     Author_blocked := Author_blocked db;
     Author_favorite_entries := Author_favorite_entries db;
     Author_upvoted_entries := Author_upvoted_entries db;
     Author_downvoted_entries := Author_downvoted_entries db;
     Author_following_categories := Author_following_categories db;
     Memento_objects := Memento_objects db;
     UserVerification_objects := UserVerification_objects db;
     Entry_objects := Entry_objects db;
     Category_objects := Category_objects db |}.

(** [a.following.add(b)] of the field declared with [symmetrical=False]:
    the one row from [a] to [b]. *)
Definition following_add (db : DB) (a b : Z) : DB :=
  set_Author_following (m2m_add (Author_following db) a [b]) db.

(** ** Invariants *)

(** No two rows hold the same value in a unique column. *)
Definition unique_column {A B} (col : A -> B) (m : gmap Z A) : Prop :=
  forall k1 k2 r1 r2,
    m !! k1 = Some r1 -> m !! k2 = Some r2 -> col r1 = col r2 -> k1 = k2.

(** No two rows hold the same value in a unique column that admits
    [NULL]. *)
Definition unique_nullable {A B} (col : A -> option B) (m : gmap Z A) : Prop :=
  forall k1 k2 r1 r2 v,
    m !! k1 = Some r1 -> m !! k2 = Some r2 ->
    col r1 = Some v -> col r2 = Some v -> k1 = k2.

(** Handles, emails and pinned entries are unique among the accounts. *)
Definition authors_ok (db : DB) : Prop :=
  unique_column Author.username (rows (Author_objects db)) /\
  unique_column Author.email (rows (Author_objects db)) /\
  unique_nullable Author.pinned_entry (rows (Author_objects db)).

(** One memento per pair of holder and patient. *)
Definition mementos_ok (db : DB) : Prop :=
  unique_column pair (rows (Memento_objects db)).

(** The rows of [following_categories] start at accounts that exist. *)
Definition links_ok (db : DB) : Prop :=
  forall l, l ∈ Author_following_categories db ->
            is_Some (rows (Author_objects db) !! l.1).

(** What the rows refer to exists: the holder and the patient of a
    memento, the author of a verification row, the entry an account pins. *)
Definition refs_ok (db : DB) : Prop :=
  (forall k m, rows (Memento_objects db) !! k = Some m ->
               is_Some (rows (Author_objects db) !! Memento.holder m) /\
               is_Some (rows (Author_objects db) !! Memento.patient m)) /\
  (forall k v, rows (UserVerification_objects db) !! k = Some v ->
               is_Some (rows (Author_objects db) !! UserVerification.author v)) /\
  (forall k a e, rows (Author_objects db) !! k = Some a ->
                 Author.pinned_entry a = Some e ->
                 is_Some (rows (Entry_objects db) !! e)).

(** ** Sample data *)
Module sample.

Definition ali : Author.t := Author.new (lit "ali") (lit "ali@example.com").
Definition veli : Author.t := Author.new (lit "veli") (lit "veli@example.com").

(** [ali] as stored under key 1. *)
Definition ali1 : Author.t := with_pk 1 ali.

Definition token (a : Z) (value : string) (at_ : datetime) : UserVerification.t :=
  {| UserVerification.id := None; UserVerification.author := a;
     UserVerification.verification_token := lit value;
     UserVerification.new_email := None;
     UserVerification.expiration_date := at_ |}.

Definition entry (a : Z) (rate : Q) : Entry.t :=
  {| Entry.id := None; Entry.author := a; Entry.vote_rate := rate;
     Entry.date_created := 0 |}.

Definition memento (h p : Z) (text : string) : Memento.t :=
  {| Memento.id := None; Memento.body := Some (lit text);
     Memento.holder := h; Memento.patient := p |}.

End sample.

(** * Properties *)

(** ** Tables *)

Lemma max_pk_ge {A} (m : gmap Z A) k v : m !! k = Some v -> k <= max_pk m.
Proof.
  intros Hk. apply elem_of_map_to_list in Hk.
  assert (Hin : k ∈ (map_to_list m).*1).
  { apply list_elem_of_fmap. by exists (k, v). }
  unfold max_pk. induction ((map_to_list m).*1) as [|x l IH]; simpl.
  - by apply elem_of_nil in Hin.
  - apply elem_of_cons in Hin as [->|Hin]; [lia|]. specialize (IH Hin). lia.
Qed.

Lemma next_pk_fresh {A} (tbl : table A) : rows tbl !! next_pk tbl = None.
Proof.
  destruct (rows tbl !! next_pk tbl) as [v|] eqn:E; [|done].
  apply max_pk_ge in E. unfold next_pk in E. lia.
Qed.

Lemma lookup_delete_where {A} (sel : A -> bool) (tbl : table A) k v :
  rows (delete_where sel tbl) !! k = Some v <->
  rows tbl !! k = Some v /\ sel v = false.
Proof. unfold delete_where; simpl. by rewrite map_lookup_filter_Some. Qed.

Lemma taken_true {A B} `{EqDecision B} (col : A -> B) others self :
  taken col others self = true <->
  exists k r, others !! k = Some r /\ col r = col self.
Proof. unfold taken. by rewrite bool_decide_eq_true, map_Exists_lookup. Qed.

Lemma taken_false {A B} `{EqDecision B} (col : A -> B) others self :
  taken col others self = false <->
  forall k r, others !! k = Some r -> col r <> col self.
Proof.
  unfold taken. rewrite bool_decide_eq_false, map_Exists_lookup. split.
  - intros Hn k r Hk Hc. apply Hn. eauto.
  - intros Hn (k & r & Hk & Hc). by eapply Hn.
Qed.

(** A finite map whose keys are all equal has at most one row. *)
Lemma size_le_1 {A} (m : gmap Z A) :
  (forall k1 k2, is_Some (m !! k1) -> is_Some (m !! k2) -> k1 = k2) <->
  (size m <= 1)%nat.
Proof.
  split.
  - induction m as [|k v m Hk _] using map_ind; intros Hall.
    + rewrite map_size_empty. lia.
    + rewrite map_size_insert_None by done.
      destruct (decide (m = ∅)) as [->|Hne].
      * rewrite map_size_empty. lia.
      * apply map_choose in Hne as (k' & v' & Hk').
        assert (k = k').
        { apply Hall.
          - rewrite lookup_insert_eq. eauto.
          - rewrite lookup_insert_ne by congruence. eauto. }
        congruence.
  - intros Hsz k1 k2 [v1 H1] [v2 H2].
    destruct (decide (k1 = k2)) as [|Hne]; [done|].
    assert (Hsub : ({[k1 := v1]} ∪ {[k2 := v2]} : gmap Z A) ⊆ m).
    { apply map_subseteq_spec. intros i x Hi.
      apply lookup_union_Some_raw in Hi as [Hi|[_ Hi]];
        apply lookup_singleton_Some in Hi as [<- <-]; done. }
    apply map_subseteq_size in Hsub.
    rewrite map_size_disj_union in Hsub
      by (apply map_disjoint_singleton_l, lookup_singleton_ne; congruence).
    rewrite !map_size_singleton in Hsub. lia.
Qed.

Lemma Model_save_eq {A} `{Model A} check (tbl : table A) self :
  Model_save check tbl self =
  match check (delete (save_key tbl self) (rows tbl)) (saved tbl self) with
  | Some c => (tbl, inl (IntegrityError c))
  | None =>
      (Table (<[save_key tbl self := saved tbl self]> (rows tbl))
             (Z.max (sequence tbl) (save_key tbl self)),
       inr (saved tbl self))
  end.
Proof. unfold Model_save, save_key, saved. by destruct (pk self). Qed.

(** ** The nick pattern *)

Lemma matches_repeat rs p b s :
  re.matches (re.MAX_REPEAT_1 rs :: p) b s =
  match s with
  | [] => false
  | c :: t =>
      re.IN rs c && (re.matches (re.MAX_REPEAT_1 rs :: p) false t || re.matches p false t)
  end.
Proof. destruct s; reflexivity. Qed.

Lemma IN_nick_ranges c :
  re.IN [(N_of_ascii "a", N_of_ascii "z"); (N_of_ascii " ", N_of_ascii " ")] c
  = nick_char c.
Proof.
  unfold re.IN, re.in_range, nick_char, existsb, fst, snd.
  change (N_of_ascii "a") with 97%N. change (N_of_ascii "z") with 122%N.
  change (N_of_ascii " ") with 32%N.
  rewrite orb_false_r. f_equal.
  destruct (N.eqb_spec c 32) as [->|Hne]; [reflexivity|].
  apply andb_false_iff.
  destruct (N.leb_spec 32 c); [right|left; reflexivity].
  apply N.leb_gt. lia.
Qed.

Lemma matches_nick_tail b s :
  re.matches (tail AuthorNickValidator.regex) b s = true <-> nick_shape s.
Proof.
  unfold AuthorNickValidator.regex; simpl tail.
  induction s as [|c t IH]; rewrite matches_repeat.
  - split; [discriminate|].
    intros (body & Hne & _ & [H|H]); [congruence|].
    destruct body; discriminate.
  - rewrite IN_nick_ranges, andb_true_iff, orb_true_iff, IH. split.
    + intros [Hc [(body & Hne & Hall & Hs)|Hend]].
      * exists (c :: body). split; [discriminate|]. split; [by constructor|].
        destruct Hs as [->| ->]; [by left|by right].
      * exists [c]. split; [discriminate|]. split; [by repeat constructor|].
        simpl in Hend. rewrite andb_true_r in Hend.
        destruct t as [|d [|]]; simpl in Hend; try discriminate.
        -- by left.
        -- apply N.eqb_eq in Hend as ->. by right.
    + intros (body & Hne & Hall & Hs).
      destruct body as [|c' body]; [done|].
      apply Forall_cons in Hall as [Hc' Hall].
      assert (c = c' /\ (t = body \/ t = body ++ [LF])) as [-> Ht].
      { destruct Hs as [Hs|Hs]; simpl in Hs; inversion Hs; auto. }
      split; [done|].
      destruct body as [|d body].
      * right. simpl. destruct Ht as [->| ->]; reflexivity.
      * left. exists (d :: body). by repeat split.
Qed.

Lemma search_nick s :
  re.search AuthorNickValidator.regex s = true <-> nick_shape s.
Proof.
  unfold re.search.
  assert (Hno : forall t, re.search_from AuthorNickValidator.regex false t = false).
  { induction t as [|c t IH]; simpl; [reflexivity|]. exact IH. }
  rewrite <- (matches_nick_tail true s).
  destruct s as [|c t]; unfold re.search_from; fold re.search_from.
  - rewrite orb_false_r. simpl. tauto.
  - rewrite Hno, orb_false_r. simpl. tauto.
Qed.

(** The nick validator accepts exactly the strings of that shape. *)
Lemma AuthorNickValidator_accepts s :
  AuthorNickValidator.call s = [] <-> nick_shape s.
Proof.
  unfold AuthorNickValidator.call, RegexValidator.
  rewrite <- search_nick.
  destruct (re.search _ s); split; (done || discriminate).
Qed.

Lemma AuthorNickValidator_rejects s :
  AuthorNickValidator.call s = ["invalid"%string] <-> ~ nick_shape s.
Proof.
  rewrite <- AuthorNickValidator_accepts.
  unfold AuthorNickValidator.call, RegexValidator.
  destruct (re.search _ s); split; intros H; done.
Qed.

(** Every non-empty handle over the alphabet passes the pattern. *)
Lemma AuthorNickValidator_alphabet s :
  s <> [] -> Forall (fun c => nick_char c = true) s ->
  AuthorNickValidator.call s = [].
Proof.
  intros Hne Hall. apply AuthorNickValidator_accepts.
  exists s. auto.
Qed.

(** A character outside the alphabet that is not a newline is rejected
    wherever it stands. *)
Lemma AuthorNickValidator_foreign s c :
  c ∈ s -> nick_char c = false -> c <> LF ->
  AuthorNickValidator.call s = ["invalid"%string].
Proof.
  intros Hin Hc Hlf. apply AuthorNickValidator_rejects.
  intros (body & _ & Hall & [->| ->]).
  - rewrite Forall_forall in Hall. apply Hall in Hin. congruence.
  - apply elem_of_app in Hin as [Hin|Hin].
    + rewrite Forall_forall in Hall. apply Hall in Hin. congruence.
    + apply list_elem_of_singleton in Hin. contradiction.
Qed.

(** C4. The handle ["a\n"] holds a newline, a character outside the
    lowercase letters and the space, yet the nick validator reports no
    error on it and cleaning the field returns the handle as it is: the
    [$] of the pattern also matches before a final newline. *)
Theorem nick_trailing_newline_accepted :
  let handle := lit "a" ++ [LF] in
  LF ∈ handle /\
  nick_char LF = false /\
  AuthorNickValidator.call handle = [] /\
  username_field.clean handle = inr handle.
Proof.
  simpl. split; [|by vm_compute].
  apply list_elem_of_In. simpl. auto.
Qed.

(** ** The length of a handle *)

Lemma MaxLengthValidator_over limit value :
  limit < Z.of_nat (length value) ->
  MaxLengthValidator limit value = ["max_length"%string].
Proof.
  intros H. unfold MaxLengthValidator.
  destruct (Z.ltb_spec limit (Z.of_nat (length value))); [reflexivity|lia].
Qed.

Lemma MaxLengthValidator_within limit value :
  Z.of_nat (length value) <= limit ->
  MaxLengthValidator limit value = [].
Proof.
  intros H. unfold MaxLengthValidator.
  destruct (Z.ltb_spec limit (Z.of_nat (length value))); [lia|reflexivity].
Qed.

Lemma username_clean_errors value :
  value <> [] ->
  username_field.clean value =
  match AuthorNickValidator.call value ++
        MaxLengthValidator username_field.max_length value with
  | [] => inr value
  | errors => inl (ValidationError errors)
  end.
Proof.
  intros Hne. unfold username_field.clean, validate_required, run_validators.
  destruct value as [|c t]; [done|].
  unfold username_field.validators, flat_map. rewrite app_nil_r.
  by destruct (_ ++ _).
Qed.

(** A non-empty handle over the alphabet of at most 50 characters is
    cleaned to itself. *)
Lemma username_clean_accepts value :
  value <> [] ->
  Forall (fun c => nick_char c = true) value ->
  (length value <= 50)%nat ->
  username_field.clean value = inr value.
Proof.
  intros Hne Hall Hlen.
  rewrite username_clean_errors, AuthorNickValidator_alphabet by done.
  rewrite MaxLengthValidator_within; [done|].
  unfold username_field.max_length. lia.
Qed.

(** C10. A handle of more than 50 characters fails the cleaning of the
    field with a [ValidationError] that carries [max_length]; when the
    handle is made of lowercase letters and spaces only, that is the one
    error reported. *)
Theorem username_too_long (value : str) :
  (50 < length value)%nat ->
  (exists codes,
      username_field.clean value = inl (ValidationError codes) /\
      "max_length"%string ∈ codes) /\
  (Forall (fun c => nick_char c = true) value ->
   username_field.clean value = inl (ValidationError ["max_length"%string])).
Proof.
  intros Hlen.
  assert (Hne : value <> []) by (intros ->; simpl in Hlen; lia).
  assert (Hmax : MaxLengthValidator username_field.max_length value
                 = ["max_length"%string]).
  { apply MaxLengthValidator_over. unfold username_field.max_length. lia. }
  rewrite username_clean_errors, Hmax by done. split.
  - destruct (AuthorNickValidator.call value) as [|e l] eqn:E; simpl.
    + eexists; split; [reflexivity|]. apply list_elem_of_In; simpl; auto.
    + eexists; split; [reflexivity|].
      apply elem_of_cons; right. apply elem_of_app; right.
      apply list_elem_of_In; simpl; auto.
  - intros Hall. by rewrite AuthorNickValidator_alphabet.
Qed.

Lemma username_too_long_witness :
  let value := repeat (N_of_ascii "a") 51 in
  (50 < length value)%nat /\
  Forall (fun c => nick_char c = true) value /\
  username_field.clean value = inl (ValidationError ["max_length"%string]).
Proof.
  intros value.
  assert (Hlen : (50 < length value)%nat) by (vm_compute; lia).
  assert (Hall : Forall (fun c => nick_char c = true) value).
  { apply Forall_forall. intros c Hc. apply list_elem_of_In, repeat_spec in Hc.
    by subst c. }
  split; [exact Hlen|]. split; [exact Hall|].
  exact (proj2 (username_too_long value Hlen) Hall).
Defined.

(** ** Verification tokens *)

Lemma lookup_tokens_of db a k v :
  tokens_of db a !! k = Some v <->
  rows (UserVerification_objects db) !! k = Some v /\ UserVerification.author v = a.
Proof. unfold tokens_of. by rewrite map_lookup_filter_Some. Qed.

Lemma tokens_of_delete_of db a : tokens_of (UserVerification_delete_of db a) a = ∅.
Proof.
  apply map_empty. intros k.
  destruct (tokens_of _ a !! k) as [v|] eqn:E; [|done].
  apply lookup_tokens_of in E as [E Ha].
  apply lookup_delete_where in E as [_ E].
  apply bool_decide_eq_false in E. contradiction.
Qed.

Lemma author_saved (tbl : table UserVerification.t) self :
  UserVerification.author (saved tbl self) = UserVerification.author self.
Proof. unfold saved. by destruct (pk self). Qed.

Lemma verification_token_saved (tbl : table UserVerification.t) self :
  UserVerification.verification_token (saved tbl self)
  = UserVerification.verification_token self.
Proof. unfold saved. by destruct (pk self). Qed.

Lemma pk_saved_token (tbl : table UserVerification.t) self :
  pk (saved tbl self) = Some (save_key tbl self).
Proof. unfold saved, save_key. by destruct (pk self) eqn:E. Qed.

Lemma UserVerification_save_eq db self :
  let db1 := UserVerification_delete_of db (UserVerification.author self) in
  let T := UserVerification_objects db1 in
  UserVerification_save db self =
  if has_pk (Author_objects db) (UserVerification.author self)
  then (set_UserVerification_objects
          (Table (<[save_key T self := saved T self]> (rows T))
                 (Z.max (sequence T) (save_key T self))) db1,
        inr (saved T self))
  else (db1, inl (IntegrityError (FOREIGN_KEY "author"))).
Proof.
  intros db1 T. unfold UserVerification_save. fold db1. fold T.
  rewrite Model_save_eq. unfold UserVerification_check.
  rewrite author_saved.
  change (Author_objects db1) with (Author_objects db).
  by destruct (has_pk (Author_objects db) (UserVerification.author self)).
Qed.

(** After a save that went through, the rows of the author are the saved
    instance alone. *)
Lemma tokens_of_saved db self :
  has_pk (Author_objects db) (UserVerification.author self) = true ->
  exists db' k v,
    UserVerification_save db self = (db', inr v) /\
    pk v = Some k /\
    UserVerification.author v = UserVerification.author self /\
    UserVerification.verification_token v = UserVerification.verification_token self /\
    UserVerification.expiration_date v = UserVerification.expiration_date self /\
    tokens_of db' (UserVerification.author self) = {[ k := v ]}.
Proof.
  intros Hpk. rewrite UserVerification_save_eq, Hpk.
  set (db1 := UserVerification_delete_of db _).
  set (T := UserVerification_objects db1).
  eexists _, (save_key T self), (saved T self).
  split; [reflexivity|]. split; [apply pk_saved_token|].
  split; [apply author_saved|]. split; [apply verification_token_saved|].
  split; [unfold saved; by destruct (pk self)|].
  apply map_eq. intros j.
  destruct (decide (j = save_key T self)) as [->|Hne].
  - rewrite lookup_singleton_eq. apply lookup_tokens_of. simpl.
    rewrite lookup_insert_eq. split; [done|apply author_saved].
  - rewrite lookup_singleton_ne by congruence.
    destruct (tokens_of _ _ !! j) as [v|] eqn:E; [|done].
    apply lookup_tokens_of in E as [E Ha]. simpl in E.
    rewrite lookup_insert_ne in E by congruence.
    assert (Hin : tokens_of db1 (UserVerification.author self) !! j = Some v).
    { by apply lookup_tokens_of. }
    unfold db1 in Hin. rewrite tokens_of_delete_of in Hin. done.
Qed.

(** What each operation leaves alone. *)
Ltac frame_Author_save :=
  intros; unfold Author_save;
  match goal with
  | |- context [Model_save ?c ?t ?x] =>
      destruct (Model_save c t x) as [? [?|?]]
  end;
  [reflexivity|];
  destruct (bool_decide _); [|reflexivity];
  match goal with |- context [pk ?x] => destruct (pk x) end; reflexivity.

Ltac frame_save f :=
  intros; unfold f;
  match goal with
  | |- context [Model_save ?c ?t ?x] => destruct (Model_save c t x) as [? ?]
  end; reflexivity.

Lemma Author_save_tokens db self :
  UserVerification_objects (Author_save db self).1 = UserVerification_objects db.
Proof. frame_Author_save. Qed.

Lemma Author_save_mementos db self :
  Memento_objects (Author_save db self).1 = Memento_objects db.
Proof. frame_Author_save. Qed.

Lemma Author_save_entries db self :
  Entry_objects (Author_save db self).1 = Entry_objects db.
Proof. frame_Author_save. Qed.

Lemma Author_save_categories db self :
  Category_objects (Author_save db self).1 = Category_objects db.
Proof. frame_Author_save. Qed.

Lemma Memento_save_tokens db self :
  UserVerification_objects (Memento_save db self).1 = UserVerification_objects db.
Proof. frame_save Memento_save. Qed.

Lemma Memento_save_authors db self :
  Author_objects (Memento_save db self).1 = Author_objects db.
Proof. frame_save Memento_save. Qed.

Lemma Memento_save_links db self :
  Author_following_categories (Memento_save db self).1
  = Author_following_categories db.
Proof. frame_save Memento_save. Qed.

Lemma Entry_save_tokens db self :
  UserVerification_objects (Entry_save db self).1 = UserVerification_objects db.
Proof. frame_save Entry_save. Qed.

Lemma Entry_save_mementos db self :
  Memento_objects (Entry_save db self).1 = Memento_objects db.
Proof. frame_save Entry_save. Qed.

Lemma Entry_save_authors db self :
  Author_objects (Entry_save db self).1 = Author_objects db.
Proof. frame_save Entry_save. Qed.

Lemma Entry_save_links db self :
  Author_following_categories (Entry_save db self).1
  = Author_following_categories db.
Proof. frame_save Entry_save. Qed.

Lemma UserVerification_save_authors db self :
  Author_objects (UserVerification_save db self).1 = Author_objects db.
Proof. frame_save UserVerification_save. Qed.

Lemma UserVerification_save_mementos db self :
  Memento_objects (UserVerification_save db self).1 = Memento_objects db.
Proof. frame_save UserVerification_save. Qed.

Lemma UserVerification_save_links db self :
  Author_following_categories (UserVerification_save db self).1
  = Author_following_categories db.
Proof. frame_save UserVerification_save. Qed.

Lemma Memento_upsert_cases db h p body :
  Memento_upsert db h p body =
    Memento_save db {| Memento.id := None; Memento.body := body;
                       Memento.holder := h; Memento.patient := p |} \/
  (exists e, Memento_upsert db h p body =
             ((Memento_save db {| Memento.id := None; Memento.body := body;
                                  Memento.holder := h; Memento.patient := p |}).1,
              inl e)) \/
  (exists k, Memento_upsert db h p body =
     Memento_save
       (Memento_save db {| Memento.id := None; Memento.body := body;
                           Memento.holder := h; Memento.patient := p |}).1
       {| Memento.id := k; Memento.body := body;
          Memento.holder := h; Memento.patient := p |}).
Proof.
  unfold Memento_upsert.
  destruct (Memento_save db _) as [db' [e|m]]; [|by left].
  destruct (violates _ e); [|right; left; by exists e].
  destruct (Memento_get db' h p) as [m|]; [|right; left; by exists e].
  right; right. by exists (Memento.id m).
Qed.

Ltac frame_upsert :=
  intros;
  match goal with
  | |- context [Memento_upsert ?db ?h ?p ?b] =>
      destruct (Memento_upsert_cases db h p b) as [E|[[e E]|[k E]]]; rewrite E
  end.

Lemma Memento_upsert_tokens db h p body :
  UserVerification_objects (Memento_upsert db h p body).1
  = UserVerification_objects db.
Proof.
  frame_upsert; simpl; by rewrite ?Memento_save_tokens.
Qed.

Lemma Memento_upsert_authors db h p body :
  Author_objects (Memento_upsert db h p body).1 = Author_objects db.
Proof.
  frame_upsert; simpl; by rewrite ?Memento_save_authors.
Qed.

Lemma Memento_upsert_links db h p body :
  Author_following_categories (Memento_upsert db h p body).1
  = Author_following_categories db.
Proof.
  frame_upsert; simpl; by rewrite ?Memento_save_links.
Qed.

Lemma Author_delete_tokens policy db b k v :
  rows (UserVerification_objects (Author_delete policy db b).1) !! k = Some v ->
  rows (UserVerification_objects db) !! k = Some v.
Proof.
  unfold Author_delete.
  destruct policy; [|destruct (bool_decide _)]; simpl; try done;
    rewrite map_lookup_filter_Some; tauto.
Qed.

Lemma one_token_shrink db db' :
  (forall k v, rows (UserVerification_objects db') !! k = Some v ->
               rows (UserVerification_objects db) !! k = Some v) ->
  one_token db -> one_token db'.
Proof.
  intros Hsub Hinv a. etrans; [|apply (Hinv a)].
  apply map_subseteq_size, map_subseteq_spec. intros k v.
  rewrite !lookup_tokens_of. intros [H1 H2]. auto.
Qed.

Lemma one_token_same db db' :
  UserVerification_objects db' = UserVerification_objects db ->
  one_token db -> one_token db'.
Proof. intros E. apply one_token_shrink. by rewrite E. Qed.

Lemma UserVerification_save_one_token db self :
  one_token db -> one_token (UserVerification_save db self).1.
Proof.
  intros Hinv a.
  destruct (decide (a = UserVerification.author self)) as [->|Hne].
  - destruct (has_pk (Author_objects db) (UserVerification.author self)) eqn:Hpk.
    + destruct (tokens_of_saved db self Hpk) as (db' & k & v & E & _ & _ & _ & _ & Ht).
      rewrite E. simpl. by rewrite Ht, map_size_singleton.
    + rewrite UserVerification_save_eq, Hpk. simpl.
      rewrite tokens_of_delete_of, map_size_empty. lia.
  - etrans; [|apply (Hinv a)].
    apply map_subseteq_size, map_subseteq_spec. intros j v.
    rewrite !lookup_tokens_of. intros [Hj Ha]. split; [|done].
    rewrite UserVerification_save_eq in Hj.
    destruct (has_pk _ _);
      unfold set_UserVerification_objects in Hj;
      cbn [fst UserVerification_objects rows] in Hj.
    + rewrite lookup_insert in Hj. case_decide.
      * injection Hj as <-. rewrite author_saved in Ha. congruence.
      * apply lookup_delete_where in Hj. tauto.
    + apply lookup_delete_where in Hj. tauto.
Qed.

Lemma exec_one_token policy db o : one_token db -> one_token (exec policy db o).
Proof.
  intros Hinv. destruct o; simpl.
  - eapply one_token_same; [apply Author_save_tokens|done].
  - eapply one_token_shrink; [apply Author_delete_tokens|done].
  - by apply UserVerification_save_one_token.
  - eapply one_token_shrink; [|done]. intros j v; simpl.
    rewrite lookup_delete_Some. tauto.
  - eapply one_token_same; [apply Memento_save_tokens|done].
  - by eapply one_token_same.
  - eapply one_token_same; [apply Memento_upsert_tokens|done].
  - eapply one_token_same; [apply Entry_save_tokens|done].
  - by eapply one_token_same.
  - by eapply one_token_same.
Qed.

(** An invariant of the empty database that every operation keeps holds
    after every history. *)
Lemma run_invariant policy (P : DB -> Prop) :
  P empty_db ->
  (forall db o, P db -> P (exec policy db o)) ->
  forall ops, P (run policy ops).
Proof.
  intros H0 Hstep ops. unfold run.
  generalize dependent empty_db. induction ops as [|o ops IH]; simpl; auto.
Qed.

Lemma run_one_token policy ops : one_token (run policy ops).
Proof.
  apply run_invariant; [|apply exec_one_token].
  intros a. unfold tokens_of. simpl. rewrite map_filter_empty, map_size_empty. lia.
Qed.

(** C2. After every history each account has at most one verification row;
    the first statement of [UserVerification.save] leaves the author of the
    instance without a row; and two saves in a row for an account that
    exists leave that account exactly one row, the second instance with the
    second token's value. *)
Theorem one_token_per_account (policy : on_delete) (ops : list op) :
  let db := run policy ops in
  (forall a, (size (tokens_of db a) <= 1)%nat) /\
  (forall a, tokens_of (UserVerification_delete_of db a) a = ∅) /\
  (forall v1 v2,
      UserVerification.author v1 = UserVerification.author v2 ->
      has_pk (Author_objects db) (UserVerification.author v2) = true ->
      exists db' k v,
        UserVerification_save (UserVerification_save db v1).1 v2 = (db', inr v) /\
        pk v = Some k /\
        UserVerification.verification_token v
        = UserVerification.verification_token v2 /\
        tokens_of db' (UserVerification.author v2) = {[ k := v ]} /\
        size (tokens_of db' (UserVerification.author v2)) = 1%nat).
Proof.
  intros db. split; [apply run_one_token|].
  split; [intros a; apply tokens_of_delete_of|].
  intros v1 v2 _ Hpk.
  rewrite <- (UserVerification_save_authors db v1) in Hpk.
  destruct (tokens_of_saved _ v2 Hpk) as (db' & k & v & E & Hk & _ & Htok & _ & Hrows).
  exists db', k, v. repeat split; try done.
  by rewrite Hrows, map_size_singleton.
Qed.

Lemma one_token_per_account_witness :
  let db := run CASCADE [AuthorSave sample.ali] in
  let v1 := sample.token 1 "first" 100 in
  let v2 := sample.token 1 "second" 200 in
  UserVerification.author v1 = UserVerification.author v2 /\
  has_pk (Author_objects db) (UserVerification.author v2) = true /\
  exists db' k v,
    UserVerification_save (UserVerification_save db v1).1 v2 = (db', inr v) /\
    pk v = Some k /\
    UserVerification.verification_token v = lit "second" /\
    tokens_of db' 1 = {[ k := v ]} /\
    size (tokens_of db' 1) = 1%nat.
Proof.
  intros db v1 v2. split; [reflexivity|]. split; [by vm_compute|].
  apply (proj2 (proj2 (one_token_per_account CASCADE [AuthorSave sample.ali])) v1 v2).
  - reflexivity.
  - by vm_compute.
Defined.

(** ** Email confirmation *)

Lemma QuerySet_exists_true {A} (qs : gmap Z A) :
  QuerySet_exists qs = true <-> exists k v, qs !! k = Some v.
Proof.
  unfold QuerySet_exists. rewrite negb_true_iff, Nat.eqb_neq, map_size_non_empty_iff.
  split.
  - apply map_choose.
  - intros (k & v & Hk) ->. by rewrite lookup_empty in Hk.
Qed.

Lemma fresh_gte now v :
  fresh now v <-> now - timedelta_hours 24 <= UserVerification.expiration_date v.
Proof. unfold fresh. lia. Qed.

Lemma email_confirmed_false db now self :
  email_confirmed db now self = false <->
  exists k v, userverification_set db self !! k = Some v /\ fresh now v.
Proof.
  unfold email_confirmed.
  destruct (QuerySet_exists _) eqn:E.
  - apply QuerySet_exists_true in E as (k & v & Hk).
    apply map_lookup_filter_Some in Hk as [Hk Hf]. simpl in Hf.
    split; [intros _|done]. exists k, v. by rewrite fresh_gte.
  - split; [done|]. intros (k & v & Hk & Hf).
    assert (QuerySet_exists
              (filter (fun kv => now - timedelta_hours 24
                                 <= UserVerification.expiration_date kv.2)
                      (userverification_set db self)) = true) as E'.
    { apply QuerySet_exists_true. exists k, v.
      apply map_lookup_filter_Some. split; [done|]. by apply fresh_gte. }
    congruence.
Qed.

Lemma email_confirmed_true db now self :
  email_confirmed db now self = true <->
  forall k v, userverification_set db self !! k = Some v -> ~ fresh now v.
Proof.
  destruct (email_confirmed db now self) eqn:E.
  - split; [intros _|done]. intros k v Hk Hf.
    assert (email_confirmed db now self = false); [|congruence].
    apply email_confirmed_false. eauto.
  - apply email_confirmed_false in E as (k & v & Hk & Hf).
    split; [done|]. intros H. by destruct (H k v Hk).
Qed.

(** C1. [email_confirmed] is false exactly when some verification row of
    the account is fresh, and true otherwise: true for an account without a
    row; and after a token is issued for the account, false as long as no
    more than 24 hours have passed since the point the token carries, true
    once more have, the database being the same. *)
Theorem email_confirmed_fresh_token (db : DB) (now : datetime) (self : Author.t) :
  (email_confirmed db now self = false <->
   exists k v, userverification_set db self !! k = Some v /\ fresh now v) /\
  (email_confirmed db now self = true <->
   forall k v, userverification_set db self !! k = Some v -> ~ fresh now v) /\
  (userverification_set db self = ∅ -> email_confirmed db now self = true) /\
  (forall v,
      pk self = Some (UserVerification.author v) ->
      has_pk (Author_objects db) (UserVerification.author v) = true ->
      exists db' v',
        UserVerification_save db v = (db', inr v') /\
        (forall later,
            later - UserVerification.expiration_date v <= timedelta_hours 24 ->
            email_confirmed db' later self = false) /\
        (forall later,
            timedelta_hours 24 < later - UserVerification.expiration_date v ->
            email_confirmed db' later self = true)).
Proof.
  split; [apply email_confirmed_false|]. split; [apply email_confirmed_true|].
  split.
  - intros Hnone. apply email_confirmed_true. intros k v.
    by rewrite Hnone, lookup_empty.
  - intros v Hself Hpk.
    destruct (tokens_of_saved db v Hpk) as (db' & k & v' & E & _ & _ & _ & Hexp & Hrows).
    exists db', v'. split; [done|].
    assert (Hset : userverification_set db' self = {[ k := v' ]}).
    { unfold userverification_set. by rewrite Hself. }
    split; intros later Hlater.
    + apply email_confirmed_false. exists k, v'.
      rewrite Hset, lookup_singleton_eq. split; [done|].
      unfold fresh. by rewrite Hexp.
    + apply email_confirmed_true. intros j w. rewrite Hset.
      intros Hj. apply lookup_singleton_Some in Hj as [_ <-].
      unfold fresh. rewrite Hexp. lia.
Qed.

Lemma email_confirmed_fresh_token_witness :
  let db := run CASCADE [AuthorSave sample.ali] in
  let v := sample.token 1 "first" 100 in
  pk sample.ali1 = Some (UserVerification.author v) /\
  has_pk (Author_objects db) (UserVerification.author v) = true /\
  email_confirmed db 100 sample.ali1 = true /\
  exists db' v',
    UserVerification_save db v = (db', inr v') /\
    email_confirmed db' 100 sample.ali1 = false /\
    email_confirmed db' (101 + timedelta_hours 24) sample.ali1 = true.
Proof.
  intros db v. split; [reflexivity|]. split; [by vm_compute|].
  split; [by vm_compute|].
  destruct (proj2 (proj2 (proj2
              (email_confirmed_fresh_token db 100 sample.ali1))) v)
    as (db' & v' & E & Hfresh & Haged).
  - reflexivity.
  - by vm_compute.
  - exists db', v'. split; [exact E|]. split.
    + apply Hfresh. by vm_compute.
    + apply Haged. by vm_compute.
Defined.

(** ** The entry to brag about *)

#[local] Instance vote_rate_desc_trans : Transitive vote_rate_desc.
Proof. intros x y z Hxy Hyz. unfold vote_rate_desc in *. by eapply Qle_trans. Qed.

#[local] Instance vote_rate_desc_total : Total vote_rate_desc.
Proof.
  intros x y. unfold vote_rate_desc.
  destruct (Qlt_le_dec (Entry.vote_rate x) (Entry.vote_rate y)) as [Hlt|Hle].
  - right. by apply Qlt_le_weak.
  - by left.
Qed.

(** [first()] of an ordered query set: a row that no other row precedes. *)
Lemma head_merge_sort l :
  match head (merge_sort vote_rate_desc l) with
  | Some x => x ∈ l /\ forall y, y ∈ l -> vote_rate_desc x y
  | None => l = []
  end.
Proof.
  pose proof (merge_sort_Permutation vote_rate_desc l) as Hperm.
  pose proof (Sorted_merge_sort vote_rate_desc l) as Hsorted.
  apply Sorted_StronglySorted in Hsorted; [|apply _].
  destruct (merge_sort vote_rate_desc l) as [|x l'] eqn:E; simpl.
  - by apply Permutation_nil_l in Hperm.
  - apply StronglySorted_inv in Hsorted as [_ Hall].
    split.
    + rewrite <- Hperm. by left.
    + intros y Hy. rewrite <- Hperm in Hy.
      apply elem_of_cons in Hy as [->|Hy].
      * unfold vote_rate_desc. apply Qle_refl.
      * rewrite Forall_forall in Hall. by apply Hall.
Qed.

(** C7. [entry_nice] is [None] for an account without a published entry
    and for one whose best published entry has a vote rate of at most 1;
    when the best rate is above 1 it is a published entry of the account
    with that rate; and whatever it returns is a published entry of the
    account with a rate above 1 that no other published entry of the account
    exceeds. *)
Theorem entry_nice_threshold
    (objects_published : Entry.t -> bool) (db : DB) (self : Author.t) :
  let published := published_by objects_published db self in
  let nice := entry_nice objects_published db self in
  (published = [] -> nice = None) /\
  (forall best,
      best ∈ published ->
      (forall e, e ∈ published -> (Entry.vote_rate e <= Entry.vote_rate best)%Q) ->
      ((Entry.vote_rate best <= 1)%Q -> nice = None) /\
      ((1 < Entry.vote_rate best)%Q ->
       exists e, nice = Some e /\ e ∈ published /\
                 (Entry.vote_rate e == Entry.vote_rate best)%Q)) /\
  (forall e,
      nice = Some e ->
      e ∈ published /\ (1 < Entry.vote_rate e)%Q /\
      forall e', e' ∈ published -> (Entry.vote_rate e' <= Entry.vote_rate e)%Q).
Proof.
  intros published nice. unfold nice, entry_nice. fold published.
  pose proof (head_merge_sort published) as Hhead.
  destruct (head (merge_sort vote_rate_desc published)) as [x|].
  - destruct Hhead as [Hx Hmax]. split; [|split].
    + intros E. rewrite E in Hx. by apply elem_of_nil in Hx.
    + intros best Hbest Hbestmax.
      assert (Heq : (Entry.vote_rate x == Entry.vote_rate best)%Q).
      { apply Qle_antisym; [by apply Hbestmax|by apply (Hmax best)]. }
      destruct (Qlt_le_dec 1 (Entry.vote_rate x)) as [Hlt|Hle]; split.
      * intros Hb. rewrite <- Heq in Hb. by destruct (Qlt_not_le _ _ Hlt).
      * intros _. by exists x.
      * done.
      * intros Hb. rewrite <- Heq in Hb. by destruct (Qlt_not_le _ _ Hb).
    + intros e He.
      destruct (Qlt_le_dec 1 (Entry.vote_rate x)) as [Hlt|Hle]; [|done].
      injection He as <-. split; [done|]. split; [done|].
      intros e' He'. exact (Hmax e' He').
  - split; [done|]. split; [|done].
    intros best Hbest. rewrite Hhead in Hbest. by apply elem_of_nil in Hbest.
Qed.

Lemma entry_nice_threshold_witness :
  let db :=
    run CASCADE [AuthorSave sample.ali; EntrySave (sample.entry 1 (1 # 2));
                 EntrySave (sample.entry 1 (3 # 2))] in
  let published := published_by (fun _ => true) db sample.ali1 in
  let best := with_pk 2 (sample.entry 1 (3 # 2)) in
  best ∈ published /\
  (forall e, e ∈ published -> (Entry.vote_rate e <= Entry.vote_rate best)%Q) /\
  (1 < Entry.vote_rate best)%Q /\
  exists e, entry_nice (fun _ => true) db sample.ali1 = Some e /\
            e ∈ published /\ (Entry.vote_rate e == Entry.vote_rate best)%Q.
Proof.
  intros db published best.
  assert (Hpub : published = [best; with_pk 1 (sample.entry 1 (1 # 2))])
    by (by vm_compute).
  assert (Hin : best ∈ published) by (rewrite Hpub; by left).
  assert (Hmax : forall e, e ∈ published ->
                           (Entry.vote_rate e <= Entry.vote_rate best)%Q).
  { intros e. rewrite Hpub. intros He.
    apply elem_of_cons in He as [->|He]; [apply Qle_refl|].
    apply list_elem_of_singleton in He as ->. by vm_compute. }
  assert (Hlt : (1 < Entry.vote_rate best)%Q) by (by vm_compute).
  split; [exact Hin|]. split; [exact Hmax|]. split; [exact Hlt|].
  exact (proj2 (proj1 (proj2
           (entry_nice_threshold (fun _ => true) db sample.ali1)) best Hin Hmax) Hlt).
Defined.

(** ** Unique columns *)

Lemma unique_column_sub {A B} (col : A -> B) (m m' : gmap Z A) :
  (forall k r, m' !! k = Some r -> m !! k = Some r) ->
  unique_column col m -> unique_column col m'.
Proof. intros Hsub Hu k1 k2 r1 r2 H1 H2. apply Hu; auto. Qed.

Lemma unique_nullable_sub {A B} (col : A -> option B) (m m' : gmap Z A) :
  (forall k r, m' !! k = Some r -> m !! k = Some r) ->
  unique_nullable col m -> unique_nullable col m'.
Proof. intros Hsub Hu k1 k2 r1 r2 v H1 H2. apply Hu; auto. Qed.

Lemma unique_column_fmap {A B} (col : A -> B) (f : A -> A) (m : gmap Z A) :
  (forall r, col (f r) = col r) ->
  unique_column col m -> unique_column col (f <$> m).
Proof.
  intros Hf Hu k1 k2 r1 r2 H1 H2 Hc.
  apply lookup_fmap_Some in H1 as (x1 & <- & H1).
  apply lookup_fmap_Some in H2 as (x2 & <- & H2).
  rewrite !Hf in Hc. eauto.
Qed.

Lemma unique_nullable_fmap {A B} (col : A -> option B) (f : A -> A) (m : gmap Z A) :
  (forall r v, col (f r) = Some v -> col r = Some v) ->
  unique_nullable col m -> unique_nullable col (f <$> m).
Proof.
  intros Hf Hu k1 k2 r1 r2 v H1 H2 Hc1 Hc2.
  apply lookup_fmap_Some in H1 as (x1 & <- & H1).
  apply lookup_fmap_Some in H2 as (x2 & <- & H2).
  apply Hf in Hc1, Hc2. eauto.
Qed.

Lemma unique_column_empty {A B} (col : A -> B) : unique_column col (∅ : gmap Z A).
Proof. intros k1 k2 r1 r2 H1. by rewrite lookup_empty in H1. Qed.

Lemma unique_nullable_empty {A B} (col : A -> option B) :
  unique_nullable col (∅ : gmap Z A).
Proof. intros k1 k2 r1 r2 v H1. by rewrite lookup_empty in H1. Qed.

(** A save keeps a column unique when its check refuses a value that is
    taken. *)
Lemma Model_save_unique {A B} `{Model A} `{EqDecision B}
    (col : A -> B) check (tbl : table A) self :
  (forall others x, check others x = None -> taken col others x = false) ->
  unique_column col (rows tbl) ->
  unique_column col (rows (Model_save check tbl self).1).
Proof.
  intros Hcheck Hu. rewrite Model_save_eq.
  destruct (check _ _) eqn:E; [done|]. simpl.
  apply Hcheck in E. rewrite taken_false in E.
  intros k1 k2 r1 r2 H1 H2 Hc.
  rewrite lookup_insert in H1, H2.
  destruct (decide (save_key tbl self = k1)) as [E1|N1];
    destruct (decide (save_key tbl self = k2)) as [E2|N2]; simplify_eq.
  - done.
  - destruct (E k2 r2); [by rewrite lookup_delete_ne|done].
  - destruct (E k1 r1); [by rewrite lookup_delete_ne|done].
  - eauto.
Qed.

Lemma Model_save_unique_nullable {A B} `{Model A} `{EqDecision B}
    (col : A -> option B) check (tbl : table A) self :
  (forall others x, check others x = None -> taken_nullable col others x = false) ->
  unique_nullable col (rows tbl) ->
  unique_nullable col (rows (Model_save check tbl self).1).
Proof.
  intros Hcheck Hu. rewrite Model_save_eq.
  destruct (check _ _) eqn:E; [done|]. simpl.
  apply Hcheck in E. unfold taken_nullable in E.
  intros k1 k2 r1 r2 v H1 H2 Hc1 Hc2.
  rewrite lookup_insert in H1, H2.
  destruct (decide (save_key tbl self = k1)) as [E1|N1];
    destruct (decide (save_key tbl self = k2)) as [E2|N2]; simplify_eq.
  - done.
  - rewrite Hc1 in E. rewrite taken_false in E.
    destruct (E k2 r2); [by rewrite lookup_delete_ne|congruence].
  - rewrite Hc2 in E. rewrite taken_false in E.
    destruct (E k1 r1); [by rewrite lookup_delete_ne|congruence].
  - eauto.
Qed.

(** ** Accounts *)

Lemma Author_check_None db others x :
  Author_check db others x = None ->
  taken Author.username others x = false /\
  taken Author.email others x = false /\
  taken_nullable Author.pinned_entry others x = false.
Proof.
  unfold Author_check.
  destruct (taken Author.username others x); [done|].
  destruct (taken Author.email others x); [done|].
  by destruct (taken_nullable Author.pinned_entry others x).
Qed.

Lemma Author_save_authors db self :
  Author_objects (Author_save db self).1
  = (Model_save (Author_check db) (Author_objects db) self).1.
Proof. frame_Author_save. Qed.

Lemma unpin_username es a : Author.username (unpin es a) = Author.username a.
Proof. unfold unpin. by destruct (pins es a). Qed.

Lemma unpin_email es a : Author.email (unpin es a) = Author.email a.
Proof. unfold unpin. by destruct (pins es a). Qed.

Lemma unpin_pinned es a v :
  Author.pinned_entry (unpin es a) = Some v ->
  Author.pinned_entry a = Some v /\ v ∉ es.
Proof.
  unfold unpin, pins. destruct (Author.pinned_entry a) as [e|] eqn:E.
  - case_bool_decide; simpl; [done|]. rewrite E. by intros [= <-].
  - by rewrite E.
Qed.

Lemma Author_delete_authors policy db b :
  rows (Author_objects (Author_delete policy db b).1) = rows (Author_objects db) \/
  exists es,
    rows (Author_objects (Author_delete policy db b).1)
    = delete b (unpin es <$> rows (Author_objects db)).
Proof.
  unfold Author_delete.
  destruct policy; [|destruct (bool_decide _)]; simpl; eauto.
Qed.

Lemma authors_ok_same db db' :
  Author_objects db' = Author_objects db -> authors_ok db -> authors_ok db'.
Proof. unfold authors_ok. by intros ->. Qed.

Lemma authors_ok_unpin es (m : gmap Z Author.t) :
  unique_column Author.username m /\ unique_column Author.email m /\
  unique_nullable Author.pinned_entry m ->
  unique_column Author.username (unpin es <$> m) /\
  unique_column Author.email (unpin es <$> m) /\
  unique_nullable Author.pinned_entry (unpin es <$> m).
Proof.
  intros (Hu & He & Hp). repeat split.
  - apply unique_column_fmap; [apply unpin_username|done].
  - apply unique_column_fmap; [apply unpin_email|done].
  - apply unique_nullable_fmap; [|done]. intros r v Hv.
    by apply unpin_pinned in Hv as [? _].
Qed.

Lemma Author_save_authors_ok db self :
  authors_ok db -> authors_ok (Author_save db self).1.
Proof.
  intros (Hu & He & Hp). unfold authors_ok. rewrite Author_save_authors.
  repeat split.
  - apply Model_save_unique; [|done]. intros o x Hc.
    by apply Author_check_None in Hc as (? & ? & ?).
  - apply Model_save_unique; [|done]. intros o x Hc.
    by apply Author_check_None in Hc as (? & ? & ?).
  - apply Model_save_unique_nullable; [|done]. intros o x Hc.
    by apply Author_check_None in Hc as (? & ? & ?).
Qed.

Lemma Author_delete_authors_ok policy db b :
  authors_ok db -> authors_ok (Author_delete policy db b).1.
Proof.
  intros Hok. unfold authors_ok.
  destruct (Author_delete_authors policy db b) as [->|[es ->]]; [done|].
  destruct (authors_ok_unpin es _ Hok) as (Hu & He & Hp).
  repeat split.
  - eapply unique_column_sub; [|exact Hu].
    intros k r. rewrite lookup_delete_Some. tauto.
  - eapply unique_column_sub; [|exact He].
    intros k r. rewrite lookup_delete_Some. tauto.
  - eapply unique_nullable_sub; [|exact Hp].
    intros k r. rewrite lookup_delete_Some. tauto.
Qed.

Lemma exec_authors_ok policy db o : authors_ok db -> authors_ok (exec policy db o).
Proof.
  intros Hok. destruct o; simpl.
  - by apply Author_save_authors_ok.
  - by apply Author_delete_authors_ok.
  - eapply authors_ok_same; [apply UserVerification_save_authors|done].
  - by eapply authors_ok_same.
  - eapply authors_ok_same; [apply Memento_save_authors|done].
  - by eapply authors_ok_same.
  - eapply authors_ok_same; [apply Memento_upsert_authors|done].
  - eapply authors_ok_same; [apply Entry_save_authors|done].
  - by apply authors_ok_unpin.
  - by eapply authors_ok_same.
Qed.

Lemma run_authors_ok policy ops : authors_ok (run policy ops).
Proof.
  apply run_invariant; [|apply exec_authors_ok].
  repeat split; simpl; (apply unique_column_empty || apply unique_nullable_empty).
Qed.

Lemma pk_saved_author (tbl : table Author.t) self :
  pk (saved tbl self) = Some (save_key tbl self).
Proof. unfold saved, save_key. by destruct (pk self) eqn:E. Qed.

Lemma saved_author_columns (tbl : table Author.t) self :
  Author.username (saved tbl self) = Author.username self /\
  Author.email (saved tbl self) = Author.email self /\
  Author.pinned_entry (saved tbl self) = Author.pinned_entry self.
Proof. unfold saved. by destruct (pk self). Qed.

Lemma Author_check_saved db others (tbl : table Author.t) self :
  Author_check db others (saved tbl self) = Author_check db others self.
Proof.
  destruct (saved_author_columns tbl self) as (Hu & He & Hp).
  unfold Author_check, taken_nullable, taken. by rewrite Hu, He, Hp.
Qed.

Lemma Author_save_eq db self :
  let T := Author_objects db in
  let K := save_key T self in
  let x := saved T self in
  Author_save db self =
  match Author_check db (delete K (rows T)) self with
  | Some c => (db, inl (IntegrityError c))
  | None =>
      let db1 :=
        set_Author_objects (Table (<[K := x]> (rows T)) (Z.max (sequence T) K)) db in
      if bool_decide (pk self = None)
      then (set_Author_following_categories
              (m2m_add (Author_following_categories db) K
                       (elements (Category_objects db))) db1,
            inr x)
      else (db1, inr x)
  end.
Proof.
  intros T K x. unfold Author_save. rewrite Model_save_eq.
  fold T. fold K. fold x. unfold x at 1. rewrite Author_check_saved.
  destruct (Author_check db _ self); [by destruct db|].
  unfold x. by rewrite pk_saved_author.
Qed.

Lemma save_key_other {A} `{Model A} (tbl : table A) self k :
  pk self <> Some k -> is_Some (rows tbl !! k) -> save_key tbl self <> k.
Proof.
  intros Hpk [r Hr] E. unfold save_key in E.
  destruct (pk self) as [k'|]; [congruence|].
  subst k. by rewrite next_pk_fresh in Hr.
Qed.

(** The rows an instance is checked against: all but its own. *)
Lemma others_lookup db self k a :
  pk self <> Some k ->
  rows (Author_objects db) !! k = Some a ->
  delete (save_key (Author_objects db) self) (rows (Author_objects db)) !! k
  = Some a.
Proof.
  intros Hpk Hk. rewrite lookup_delete_ne; [done|].
  apply save_key_other; eauto.
Qed.

(** A write that would repeat the handle or the email of another row is
    refused and changes nothing. *)
Lemma Author_save_taken db self k a :
  pk self <> Some k ->
  rows (Author_objects db) !! k = Some a ->
  Author.username a = Author.username self \/
  Author.email a = Author.email self ->
  exists c, Author_save db self = (db, inl (IntegrityError (UNIQUE c))) /\
            (c = "username" \/ c = "email")%string.
Proof.
  intros Hpk Hk Hclash. rewrite Author_save_eq.
  pose proof (others_lookup db self k a Hpk Hk) as Ho.
  unfold Author_check.
  destruct (taken Author.username _ self) eqn:Eu; [eauto|].
  destruct (taken Author.email _ self) eqn:Ee; [eauto|].
  exfalso. rewrite taken_false in Eu, Ee.
  destruct Hclash as [Hc|Hc]; [by apply (Eu k a)|by apply (Ee k a)].
Qed.

(** A write that would pin an entry another row pins is refused and changes
    nothing. *)
Lemma Author_save_pinned db self k a e :
  pk self <> Some k ->
  rows (Author_objects db) !! k = Some a ->
  Author.pinned_entry a = Some e ->
  Author.pinned_entry self = Some e ->
  let others :=
    delete (save_key (Author_objects db) self) (rows (Author_objects db)) in
  exists c, Author_save db self = (db, inl (IntegrityError (UNIQUE c))) /\
            (taken Author.username others self = false ->
             taken Author.email others self = false ->
             c = "pinned_entry"%string).
Proof.
  intros Hpk Hk Ha Hs others. rewrite Author_save_eq.
  pose proof (others_lookup db self k a Hpk Hk) as Ho.
  unfold Author_check. fold others.
  destruct (taken Author.username others self) eqn:Eu;
    [eexists; split; [reflexivity|done]|].
  destruct (taken Author.email others self) eqn:Ee;
    [eexists; split; [reflexivity|done]|].
  destruct (taken_nullable Author.pinned_entry others self) eqn:Ep;
    [eexists; split; [reflexivity|done]|].
  exfalso. unfold taken_nullable in Ep. rewrite Hs in Ep.
  rewrite taken_false in Ep. apply (Ep k a Ho). congruence.
Qed.

(** C6. After every history no two accounts share a handle or an email; and
    saving an instance whose handle or email is that of another account
    raises the integrity error of a unique constraint, that of [username]
    or of [email], and leaves the database as it was. *)
Theorem unique_handle_and_email (policy : on_delete) (ops : list op) :
  let db := run policy ops in
  (forall k1 k2 a1 a2,
      rows (Author_objects db) !! k1 = Some a1 ->
      rows (Author_objects db) !! k2 = Some a2 ->
      k1 <> k2 ->
      Author.username a1 <> Author.username a2 /\
      Author.email a1 <> Author.email a2) /\
  (forall self k a,
      pk self <> Some k ->
      rows (Author_objects db) !! k = Some a ->
      Author.username a = Author.username self \/
      Author.email a = Author.email self ->
      exists c, Author_save db self = (db, inl (IntegrityError (UNIQUE c))) /\
                (c = "username" \/ c = "email")%string).
Proof.
  intros db. destruct (run_authors_ok policy ops) as (Hu & He & _). split.
  - intros k1 k2 a1 a2 H1 H2 Hne. split; intros Heq; apply Hne.
    + by apply (Hu k1 k2 a1 a2).
    + by apply (He k1 k2 a1 a2).
  - apply Author_save_taken.
Qed.

Lemma unique_handle_and_email_witness :
  let db := run CASCADE [AuthorSave sample.ali] in
  let self := Author.new (lit "veli") (lit "ali@example.com") in
  pk self <> Some 1 /\
  rows (Author_objects db) !! 1 = Some sample.ali1 /\
  Author.email sample.ali1 = Author.email self /\
  exists c, Author_save db self = (db, inl (IntegrityError (UNIQUE c))) /\
            (c = "username" \/ c = "email")%string.
Proof.
  intros db self.
  assert (Hpk : pk self <> Some 1) by done.
  assert (Hrow : rows (Author_objects db) !! 1 = Some sample.ali1) by (by vm_compute).
  split; [exact Hpk|]. split; [exact Hrow|]. split; [reflexivity|].
  exact (proj2 (unique_handle_and_email CASCADE [AuthorSave sample.ali])
               self 1 sample.ali1 Hpk Hrow (or_intror eq_refl)).
Defined.

(** C9. After every history no two accounts pin the same entry; and saving
    an instance that pins an entry another account pins raises the
    integrity error of a unique constraint, that of [pinned_entry] unless
    the handle or the email is taken too, and leaves the database as it
    was. *)
Theorem pinned_entry_one_to_one (policy : on_delete) (ops : list op) :
  let db := run policy ops in
  (forall k1 k2 a1 a2 e,
      rows (Author_objects db) !! k1 = Some a1 ->
      rows (Author_objects db) !! k2 = Some a2 ->
      Author.pinned_entry a1 = Some e ->
      Author.pinned_entry a2 = Some e ->
      k1 = k2) /\
  (forall self k a e,
      pk self <> Some k ->
      rows (Author_objects db) !! k = Some a ->
      Author.pinned_entry a = Some e ->
      Author.pinned_entry self = Some e ->
      let others :=
        delete (save_key (Author_objects db) self) (rows (Author_objects db)) in
      exists c, Author_save db self = (db, inl (IntegrityError (UNIQUE c))) /\
                (taken Author.username others self = false ->
                 taken Author.email others self = false ->
                 c = "pinned_entry"%string)).
Proof.
  intros db. destruct (run_authors_ok policy ops) as (_ & _ & Hp). split.
  - intros k1 k2 a1 a2 e H1 H2 E1 E2. by apply (Hp k1 k2 a1 a2 e).
  - apply Author_save_pinned.
Qed.

Lemma pinned_entry_one_to_one_witness :
  let ops :=
    [AuthorSave sample.ali; AuthorSave sample.veli;
     EntrySave (sample.entry 1 (3 # 2));
     AuthorSave (Author.set_pinned_entry (Some 1) sample.ali1)] in
  let db := run CASCADE ops in
  let self := Author.set_pinned_entry (Some 1) (with_pk 2 sample.veli) in
  let a := Author.set_pinned_entry (Some 1) sample.ali1 in
  pk self <> Some 1 /\
  rows (Author_objects db) !! 1 = Some a /\
  Author.pinned_entry a = Some 1 /\
  Author.pinned_entry self = Some 1 /\
  Author_save db self = (db, inl (IntegrityError (UNIQUE "pinned_entry"))).
Proof.
  intros ops db self a.
  assert (Hpk : pk self <> Some 1) by (by vm_compute).
  assert (Hrow : rows (Author_objects db) !! 1 = Some a) by (by vm_compute).
  split; [exact Hpk|]. split; [exact Hrow|]. split; [reflexivity|].
  split; [reflexivity|].
  destruct (proj2 (pinned_entry_one_to_one CASCADE ops) self 1 a 1
                  Hpk Hrow eq_refl eq_refl) as (c & E & Hc).
  fold db in E, Hc. rewrite E, Hc; [reflexivity| |]; by vm_compute.
Defined.

(** ** The category bootstrap *)

Lemma links_ok_same db db' :
  Author_objects db' = Author_objects db ->
  Author_following_categories db' = Author_following_categories db ->
  links_ok db -> links_ok db'.
Proof. unfold links_ok. by intros -> ->. Qed.

Lemma elem_of_m2m_add links src objs l :
  l ∈ m2m_add links src objs <-> l ∈ links \/ exists o, o ∈ objs /\ l = (src, o).
Proof.
  unfold m2m_add. rewrite elem_of_union, elem_of_list_to_set, list_elem_of_fmap.
  split; (intros [Hl|(o & H1 & H2)]; [by left|right; eauto]).
Qed.

Lemma Author_save_links_ok db self : links_ok db -> links_ok (Author_save db self).1.
Proof.
  intros Hok. rewrite Author_save_eq.
  destruct (Author_check db _ self); [done|].
  destruct (bool_decide (pk self = None)); intros l Hl; simpl in *.
  - apply elem_of_m2m_add in Hl as [Hl|(o & _ & ->)]; simpl.
    + rewrite lookup_insert. case_decide; [eauto|by apply Hok].
    + rewrite lookup_insert_eq. eauto.
  - rewrite lookup_insert. case_decide; [eauto|by apply Hok].
Qed.

Lemma Author_delete_links_ok policy db b :
  links_ok db -> links_ok (Author_delete policy db b).1.
Proof.
  intros Hok. unfold Author_delete.
  assert (Hdel : forall es, links_ok (Author_delete_collected b es db)).
  { intros es l Hl. simpl in *.
    apply elem_of_filter in Hl as [Hb Hl].
    rewrite lookup_delete_ne by done. rewrite lookup_fmap.
    destruct (Hok l Hl) as [a ->]. simpl. eauto. }
  destruct policy; [apply Hdel|].
  destruct (bool_decide _); [apply Hdel|done].
Qed.

Lemma Entry_delete_links_ok db e : links_ok db -> links_ok (Entry_delete db e).
Proof.
  intros Hok l Hl. simpl in *. rewrite lookup_fmap.
  destruct (Hok l Hl) as [a ->]. simpl. eauto.
Qed.

Lemma exec_links_ok policy db o : links_ok db -> links_ok (exec policy db o).
Proof.
  intros Hok. destruct o; simpl.
  - by apply Author_save_links_ok.
  - by apply Author_delete_links_ok.
  - eapply links_ok_same;
      [apply UserVerification_save_authors|apply UserVerification_save_links|done].
  - by eapply links_ok_same.
  - eapply links_ok_same; [apply Memento_save_authors|apply Memento_save_links|done].
  - by eapply links_ok_same.
  - eapply links_ok_same;
      [apply Memento_upsert_authors|apply Memento_upsert_links|done].
  - eapply links_ok_same; [apply Entry_save_authors|apply Entry_save_links|done].
  - by apply Entry_delete_links_ok.
  - by eapply links_ok_same.
Qed.

Lemma run_links_ok policy ops : links_ok (run policy ops).
Proof.
  apply run_invariant; [|apply exec_links_ok].
  intros l Hl. simpl in Hl. by apply not_elem_of_empty in Hl.
Qed.

Lemma elem_of_following_categories db k c :
  c ∈ following_categories db k <-> (k, c) ∈ Author_following_categories db.
Proof.
  unfold following_categories. rewrite elem_of_map. split.
  - intros ([k' c'] & -> & Hl). apply elem_of_filter in Hl as [Hk Hl].
    simpl in *. by subst k'.
  - intros Hl. exists (k, c). split; [done|]. by apply elem_of_filter.
Qed.

(** The first save of a new instance that violates no constraint. *)
Lemma Author_save_created db self :
  links_ok db ->
  pk self = None ->
  Author_check db (rows (Author_objects db)) self = None ->
  exists db' k self',
    Author_save db self = (db', inr self') /\
    pk self' = Some k /\
    rows (Author_objects db) !! k = None /\
    rows (Author_objects db') !! k = Some self' /\
    Author_following_categories db'
    = m2m_add (Author_following_categories db) k (elements (Category_objects db)) /\
    Category_objects db' = Category_objects db /\
    following_categories db' k = Category_objects db.
Proof.
  intros Hok Hpk Hcheck. rewrite Author_save_eq.
  assert (HK : save_key (Author_objects db) self = next_pk (Author_objects db))
    by (unfold save_key; by rewrite Hpk).
  rewrite HK.
  pose proof (next_pk_fresh (Author_objects db)) as Hfresh.
  rewrite delete_id by done. rewrite Hcheck, Hpk. simpl.
  eexists _, (next_pk (Author_objects db)), _. split; [reflexivity|].
  split; [by rewrite pk_saved_author, HK|]. split; [done|]. simpl.
  split; [by rewrite lookup_insert_eq|]. split; [done|]. split; [done|].
  apply set_eq. intros c. rewrite elem_of_following_categories. simpl.
  rewrite elem_of_m2m_add. split.
  - intros [Hl|(o & Ho & [= ->])].
    + apply Hok in Hl as [a Ha]. simpl in Ha. congruence.
    + by apply elem_of_elements in Ho.
  - intros Hc. right. exists c. split; [by apply elem_of_elements|done].
Qed.

(** C3, as amended. The save that runs the bootstrap is the save of an
    instance without a key: when it violates no constraint it inserts the
    account under a new key and links it, by one [add], to exactly the
    categories that exist then, and a category created afterwards is not
    among those the account follows. A save of an instance that has a key
    leaves the links as they are, whether the row is there or not: an
    instance given a key of its own is inserted and follows no category. *)
Theorem category_bootstrap (policy : on_delete) (ops : list op) :
  let db := run policy ops in
  (forall self,
      pk self = None ->
      Author_check db (rows (Author_objects db)) self = None ->
      exists db' k self',
        Author_save db self = (db', inr self') /\
        pk self' = Some k /\
        rows (Author_objects db) !! k = None /\
        rows (Author_objects db') !! k = Some self' /\
        Author_following_categories db'
        = m2m_add (Author_following_categories db) k
                  (elements (Category_objects db)) /\
        following_categories db' k = Category_objects db /\
        forall c,
          c ∉ Category_objects db ->
          c ∈ Category_objects (Category_create db' c) /\
          c ∉ following_categories (Category_create db' c) k) /\
  (forall self k,
      pk self = Some k ->
      Author_following_categories (Author_save db self).1
      = Author_following_categories db) /\
  (forall self k,
      pk self = Some k ->
      rows (Author_objects db) !! k = None ->
      Author_check db (rows (Author_objects db)) self = None ->
      exists db',
        Author_save db self = (db', inr self) /\
        rows (Author_objects db') !! k = Some self /\
        following_categories db' k = ∅).
Proof.
  intros db. split; [|split].
  - intros self Hpk Hcheck.
    destruct (Author_save_created db self (run_links_ok policy ops) Hpk Hcheck)
      as (db' & k & self' & E & Hk & Hnew & Hrow & Hlinks & Hcats & Hfollow).
    exists db', k, self'. repeat split; try done.
    + simpl. apply elem_of_union. left. by apply elem_of_singleton.
    + intros Hc. apply elem_of_following_categories in Hc. simpl in Hc.
      apply elem_of_following_categories in Hc. rewrite Hfollow in Hc. done.
  - intros self k Hpk. rewrite Author_save_eq.
    destruct (Author_check db _ self); [done|].
    rewrite Hpk. by rewrite bool_decide_eq_false_2.
  - intros self k Hpk Hnew Hcheck. rewrite Author_save_eq.
    assert (HK : save_key (Author_objects db) self = k)
      by (unfold save_key; by rewrite Hpk).
    assert (HS : saved (Author_objects db) self = self)
      by (unfold saved; by rewrite Hpk).
    rewrite HK, HS, delete_id by done.
    rewrite Hcheck, Hpk, bool_decide_eq_false_2 by done.
    eexists. split; [reflexivity|]. simpl.
    split; [by rewrite lookup_insert_eq|].
    apply set_eq. intros c. rewrite elem_of_following_categories. simpl.
    split; [|intros Hc; by apply not_elem_of_empty in Hc].
    intros Hl. apply (run_links_ok policy ops) in Hl as [a Ha].
    simpl in Ha. fold db in Ha. congruence.
Qed.

(** C3, counterexample to the bootstrap on every insert: with the category
    7 in place, the first save of a new account built with the key 5
    inserts its row, and the account follows no category. *)
Lemma category_bootstrap_counterexample :
  let db := run CASCADE [CategoryCreate 7] in
  let self := Author.set_id (Some 5) sample.ali in
  rows (Author_objects db) !! 5 = None /\
  7 ∈ Category_objects db /\
  exists db',
    Author_save db self = (db', inr self) /\
    rows (Author_objects db') !! 5 = Some self /\
    following_categories db' 5 = ∅ /\
    following_categories db' 5 <> Category_objects db'.
Proof.
  intros db self. split; [by vm_compute|]. split; [by vm_compute|].
  eexists. split; [by vm_compute|]. split; [by vm_compute|].
  split; [by vm_compute|]. by vm_compute.
Qed.

Lemma category_bootstrap_witness :
  let db := run CASCADE [CategoryCreate 7; CategoryCreate 9] in
  pk sample.ali = None /\
  Author_check db (rows (Author_objects db)) sample.ali = None /\
  exists db' k self',
    Author_save db sample.ali = (db', inr self') /\
    pk self' = Some k /\
    following_categories db' k = {[7; 9]} /\
    11 ∉ following_categories (Category_create db' 11) k.
Proof.
  intros db. split; [reflexivity|]. split; [by vm_compute|].
  destruct (proj1 (category_bootstrap CASCADE [CategoryCreate 7; CategoryCreate 9])
                  sample.ali eq_refl)
    as (db' & k & self' & E & Hk & _ & _ & _ & Hfollow & Hlater).
  - by vm_compute.
  - exists db', k, self'. split; [exact E|]. split; [exact Hk|]. split.
    + rewrite Hfollow. by vm_compute.
    + apply Hlater. by vm_compute.
Defined.

(** ** Mementos *)

Lemma lookup_mementos_of db h p k m :
  mementos_of db h p !! k = Some m <->
  rows (Memento_objects db) !! k = Some m /\ pair m = (h, p).
Proof.
  unfold mementos_of, pair. rewrite map_lookup_filter_Some. simpl.
  split; intros [H1 H2]; (split; [done|]).
  - by destruct H2 as [-> ->].
  - by injection H2.
Qed.

Lemma Memento_check_None db others x :
  Memento_check db others x = None -> taken pair others x = false.
Proof. unfold Memento_check. by destruct (taken pair others x). Qed.

Lemma saved_memento_columns (tbl : table Memento.t) self :
  Memento.holder (saved tbl self) = Memento.holder self /\
  Memento.patient (saved tbl self) = Memento.patient self /\
  Memento.body (saved tbl self) = Memento.body self.
Proof. unfold saved. by destruct (pk self). Qed.

Lemma pk_saved_memento (tbl : table Memento.t) self :
  pk (saved tbl self) = Some (save_key tbl self).
Proof. unfold saved, save_key. by destruct (pk self) eqn:E. Qed.

Lemma Memento_check_saved db others (tbl : table Memento.t) self :
  Memento_check db others (saved tbl self) = Memento_check db others self.
Proof.
  destruct (saved_memento_columns tbl self) as (Hh & Hp & _).
  unfold Memento_check, taken, pair. by rewrite Hh, Hp.
Qed.

Lemma Memento_save_eq db self :
  let T := Memento_objects db in
  let K := save_key T self in
  Memento_save db self =
  match Memento_check db (delete K (rows T)) self with
  | Some c => (db, inl (IntegrityError c))
  | None =>
      (set_Memento_objects
         (Table (<[K := saved T self]> (rows T)) (Z.max (sequence T) K)) db,
       inr (saved T self))
  end.
Proof.
  intros T K. unfold Memento_save. rewrite Model_save_eq.
  fold T. fold K. rewrite Memento_check_saved.
  destruct (Memento_check db _ self); [by destruct db|done].
Qed.

Lemma Memento_save_mementos db self :
  Memento_objects (Memento_save db self).1
  = (Model_save (Memento_check db) (Memento_objects db) self).1.
Proof. frame_save Memento_save. Qed.

Lemma Memento_save_mementos_ok db self :
  mementos_ok db -> mementos_ok (Memento_save db self).1.
Proof.
  intros Hok. unfold mementos_ok. rewrite Memento_save_mementos.
  apply Model_save_unique; [|done]. intros o x. apply Memento_check_None.
Qed.

Lemma Memento_upsert_mementos_ok db h p body :
  mementos_ok db -> mementos_ok (Memento_upsert db h p body).1.
Proof.
  intros Hok.
  destruct (Memento_upsert_cases db h p body) as [E|[[e E]|[k E]]]; rewrite E.
  - by apply Memento_save_mementos_ok.
  - by apply Memento_save_mementos_ok.
  - by do 2 apply Memento_save_mementos_ok.
Qed.

Lemma mementos_ok_shrink db db' :
  (forall k m, rows (Memento_objects db') !! k = Some m ->
               rows (Memento_objects db) !! k = Some m) ->
  mementos_ok db -> mementos_ok db'.
Proof. intros Hsub. by apply unique_column_sub. Qed.

Lemma mementos_ok_same db db' :
  Memento_objects db' = Memento_objects db -> mementos_ok db -> mementos_ok db'.
Proof. unfold mementos_ok. by intros ->. Qed.

Lemma Author_delete_mementos policy db b k m :
  rows (Memento_objects (Author_delete policy db b).1) !! k = Some m ->
  rows (Memento_objects db) !! k = Some m.
Proof.
  unfold Author_delete.
  destruct policy; [|destruct (bool_decide _)]; simpl; try done;
    rewrite map_lookup_filter_Some; tauto.
Qed.

Lemma exec_mementos_ok policy db o : mementos_ok db -> mementos_ok (exec policy db o).
Proof.
  intros Hok. destruct o; simpl.
  - eapply mementos_ok_same; [apply Author_save_mementos|done].
  - eapply mementos_ok_shrink; [apply Author_delete_mementos|done].
  - eapply mementos_ok_same; [apply UserVerification_save_mementos|done].
  - by eapply mementos_ok_same.
  - by apply Memento_save_mementos_ok.
  - eapply mementos_ok_shrink; [|done]. intros j m; simpl.
    rewrite lookup_delete_Some. tauto.
  - by apply Memento_upsert_mementos_ok.
  - eapply mementos_ok_same; [apply Entry_save_mementos|done].
  - by eapply mementos_ok_same.
  - by eapply mementos_ok_same.
Qed.

Lemma run_mementos_ok policy ops : mementos_ok (run policy ops).
Proof.
  apply run_invariant; [|apply exec_mementos_ok]. apply unique_column_empty.
Qed.

Lemma mementos_ok_size db h p :
  mementos_ok db -> (size (mementos_of db h p) <= 1)%nat.
Proof.
  intros Hok. apply size_le_1. intros k1 k2 [m1 H1] [m2 H2].
  apply lookup_mementos_of in H1 as [H1 E1], H2 as [H2 E2].
  apply (Hok k1 k2 m1 m2 H1 H2). congruence.
Qed.

Lemma mementos_of_written db K x s h p :
  pair x = (h, p) ->
  (forall j m, j <> K -> rows (Memento_objects db) !! j = Some m -> pair m <> (h, p)) ->
  mementos_of
    (set_Memento_objects (Table (<[K := x]> (rows (Memento_objects db))) s) db) h p
  = {[ K := x ]}.
Proof.
  intros Hx Hrest. apply map_eq. intros j.
  destruct (decide (j = K)) as [->|Hne].
  - rewrite lookup_singleton_eq. apply lookup_mementos_of. simpl.
    by rewrite lookup_insert_eq.
  - rewrite lookup_singleton_ne by congruence.
    destruct (mementos_of _ h p !! j) as [m|] eqn:E; [|done].
    apply lookup_mementos_of in E as [E Hp]. simpl in E.
    rewrite lookup_insert_ne in E by congruence.
    by destruct (Hrest j m Hne E).
Qed.

(** A write of the pair that no other row holds goes through and is the
    row of the pair. *)
Lemma Memento_save_written db self h p :
  pair self = (h, p) ->
  has_pk (Author_objects db) h = true ->
  has_pk (Author_objects db) p = true ->
  (forall j m, j <> save_key (Memento_objects db) self ->
               rows (Memento_objects db) !! j = Some m -> pair m <> (h, p)) ->
  exists db',
    Memento_save db self = (db', inr (saved (Memento_objects db) self)) /\
    mementos_of db' h p
    = {[ save_key (Memento_objects db) self := saved (Memento_objects db) self ]}.
Proof.
  intros Hpair Hh Hp Hrest. rewrite Memento_save_eq.
  assert (Ht : taken pair
                 (delete (save_key (Memento_objects db) self)
                         (rows (Memento_objects db))) self = false).
  { apply taken_false. intros k r Hk. apply lookup_delete_Some in Hk as [Hne Hk].
    rewrite Hpair. apply (Hrest k r); [congruence|done]. }
  unfold Memento_check. rewrite Ht.
  injection Hpair as Hh' Hp'. rewrite Hh', Hp', Hh, Hp. simpl.
  eexists. split; [reflexivity|].
  apply mementos_of_written; [|done].
  destruct (saved_memento_columns (Memento_objects db) self) as (E1 & E2 & _).
  unfold pair. by rewrite E1, E2, Hh', Hp'.
Qed.

Lemma Memento_get_row db h p k m :
  mementos_ok db ->
  rows (Memento_objects db) !! k = Some m -> pair m = (h, p) ->
  Memento_get db h p = Some (with_pk k m).
Proof.
  intros Hok Hk Hpair.
  assert (E : mementos_of db h p = {[ k := m ]}).
  { apply map_eq. intros j. destruct (decide (j = k)) as [->|Hne].
    - rewrite lookup_singleton_eq. by apply lookup_mementos_of.
    - rewrite lookup_singleton_ne by congruence.
      destruct (mementos_of db h p !! j) as [m'|] eqn:E'; [|done].
      apply lookup_mementos_of in E' as [E' Hp'].
      destruct Hne. apply (Hok j k m' m E' Hk). congruence. }
  unfold Memento_get. by rewrite E, map_to_list_singleton.
Qed.

(** The upsert of a pair of accounts that exist leaves the pair one row,
    with the body written. *)
Lemma Memento_upsert_spec db h p body :
  mementos_ok db ->
  has_pk (Author_objects db) h = true ->
  has_pk (Author_objects db) p = true ->
  exists db' k m,
    Memento_upsert db h p body = (db', inr m) /\
    mementos_of db' h p = {[ k := m ]} /\
    Memento.body m = body.
Proof.
  intros Hok Hh Hp.
  set (new := {| Memento.id := None; Memento.body := body;
                 Memento.holder := h; Memento.patient := p |}).
  destruct (taken pair (rows (Memento_objects db)) new) eqn:Et.
  - apply taken_true in Et as (k0 & m0 & Hk0 & Hpair0).
    change (pair new) with (h, p) in Hpair0.
    assert (Hfail : Memento_save db new
                    = (db, inl (IntegrityError (UNIQUE "unique_memento")))).
    { rewrite Memento_save_eq.
      assert (Ht : taken pair (delete (save_key (Memento_objects db) new)
                                      (rows (Memento_objects db))) new = true).
      { apply taken_true. exists k0, m0. split; [|done].
        rewrite lookup_delete_ne; [done|].
        apply save_key_other; [done|eauto]. }
      unfold Memento_check. by rewrite Ht. }
    unfold Memento_upsert. fold new. rewrite Hfail.
    change (violates _ _) with true. cbv iota.
    rewrite (Memento_get_row db h p k0 m0 Hok Hk0 Hpair0).
    change (Memento.id (with_pk k0 m0)) with (Some k0).
    set (upd := {| Memento.id := Some k0; Memento.body := body;
                   Memento.holder := h; Memento.patient := p |}).
    destruct (Memento_save_written db upd h p) as (db' & E & Hrows); try done.
    { intros j m Hne Hj Hpair. apply Hne.
      change (save_key (Memento_objects db) upd) with k0.
      apply (Hok j k0 m m0 Hj Hk0). congruence. }
    exists db', k0, upd. by rewrite E.
  - rewrite taken_false in Et. change (pair new) with (h, p) in Et.
    destruct (Memento_save_written db new h p) as (db' & E & Hrows); try done.
    { intros j m _ Hj. by apply (Et j m). }
    unfold Memento_upsert. fold new. rewrite E.
    eexists db', _, _. split; [reflexivity|]. split; [exact Hrows|].
    by destruct (saved_memento_columns (Memento_objects db) new) as (_ & _ & ->).
Qed.

(** A second insert of a pair is refused by [unique_memento] and changes
    nothing. *)
Lemma Memento_save_duplicate db self k m :
  pk self <> Some k ->
  rows (Memento_objects db) !! k = Some m ->
  Memento.holder m = Memento.holder self ->
  Memento.patient m = Memento.patient self ->
  Memento_save db self = (db, inl (IntegrityError (UNIQUE "unique_memento"))).
Proof.
  intros Hpk Hk Hh Hp. rewrite Memento_save_eq.
  assert (Ht : taken pair (delete (save_key (Memento_objects db) self)
                                  (rows (Memento_objects db))) self = true).
  { apply taken_true. exists k, m. split.
    - rewrite lookup_delete_ne; [done|]. apply save_key_other; [done|eauto].
    - unfold pair. by rewrite Hh, Hp. }
  unfold Memento_check. by rewrite Ht.
Qed.

(** C5. After every history a pair of holder and patient has at most one
    memento; saving an instance of a pair that another row holds raises the
    integrity error of [unique_memento] and changes nothing; and writing
    body [x] and then body [y] for a pair of accounts that exist, through
    the upsert, leaves the pair exactly one row, with body [y]. *)
Theorem one_memento_per_pair (policy : on_delete) (ops : list op) :
  let db := run policy ops in
  (forall h p, (size (mementos_of db h p) <= 1)%nat) /\
  (forall self k m,
      pk self <> Some k ->
      rows (Memento_objects db) !! k = Some m ->
      Memento.holder m = Memento.holder self ->
      Memento.patient m = Memento.patient self ->
      Memento_save db self
      = (db, inl (IntegrityError (UNIQUE "unique_memento")))) /\
  (forall h p x y,
      has_pk (Author_objects db) h = true ->
      has_pk (Author_objects db) p = true ->
      exists db1 m1 db2 k m,
        Memento_upsert db h p x = (db1, inr m1) /\
        Memento_upsert db1 h p y = (db2, inr m) /\
        mementos_of db2 h p = {[ k := m ]} /\
        size (mementos_of db2 h p) = 1%nat /\
        Memento.body m = y).
Proof.
  intros db. pose proof (run_mementos_ok policy ops) as Hok. fold db in Hok.
  split; [intros h p; by apply mementos_ok_size|].
  split; [apply Memento_save_duplicate|].
  intros h p x y Hh Hp.
  destruct (Memento_upsert_spec db h p x Hok Hh Hp) as (db1 & k1 & m1 & E1 & _ & _).
  assert (Hok1 : mementos_ok db1).
  { pose proof (Memento_upsert_mementos_ok db h p x Hok) as H. by rewrite E1 in H. }
  assert (Ha : Author_objects db1 = Author_objects db).
  { pose proof (Memento_upsert_authors db h p x) as H. by rewrite E1 in H. }
  rewrite <- Ha in Hh, Hp.
  destruct (Memento_upsert_spec db1 h p y Hok1 Hh Hp) as (db2 & k & m & E2 & Hrows & Hbody).
  exists db1, m1, db2, k, m. repeat split; try done.
  by rewrite Hrows, map_size_singleton.
Qed.

Lemma one_memento_per_pair_witness :
  let ops := [AuthorSave sample.ali; AuthorSave sample.veli] in
  let db := run CASCADE ops in
  has_pk (Author_objects db) 1 = true /\
  has_pk (Author_objects db) 2 = true /\
  exists db1 m1 db2 k m,
    Memento_upsert db 1 2 (Some (lit "x")) = (db1, inr m1) /\
    Memento_upsert db1 1 2 (Some (lit "y")) = (db2, inr m) /\
    mementos_of db2 1 2 = {[ k := m ]} /\
    size (mementos_of db2 1 2) = 1%nat /\
    Memento.body m = Some (lit "y").
Proof.
  intros ops db.
  assert (H1 : has_pk (Author_objects db) 1 = true) by (by vm_compute).
  assert (H2 : has_pk (Author_objects db) 2 = true) by (by vm_compute).
  split; [exact H1|]. split; [exact H2|].
  exact (proj2 (proj2 (one_memento_per_pair CASCADE ops))
               1 2 (Some (lit "x")) (Some (lit "y")) H1 H2).
Defined.

(** ** Deletion *)

Lemma Author_delete_collected_spec b es db :
  let db' := Author_delete_collected b es db in
  rows (Author_objects db') !! b = None /\
  (forall k m,
      rows (Memento_objects db') !! k = Some m <->
      rows (Memento_objects db) !! k = Some m /\
      Memento.holder m <> b /\ Memento.patient m <> b) /\
  (forall k v,
      rows (UserVerification_objects db') !! k = Some v <->
      rows (UserVerification_objects db) !! k = Some v /\
      UserVerification.author v <> b).
Proof.
  intros db'. split; [|split].
  - unfold db'. simpl. apply lookup_delete_eq.
  - intros k m. unfold db', Author_delete_collected.
    cbn [Memento_objects Entry_delete_collected].
    rewrite lookup_delete_where, bool_decide_eq_false. tauto.
  - intros k v. unfold db', Author_delete_collected.
    cbn [UserVerification_objects Entry_delete_collected].
    by rewrite lookup_delete_where, bool_decide_eq_false.
Qed.

Lemma Author_delete_succeeds policy db b :
  policy = CASCADE \/ entries_of db b = ∅ ->
  exists es, Author_delete policy db b = (Author_delete_collected b es db, inr tt).
Proof.
  intros Hpol. unfold Author_delete. destruct policy; [eauto|].
  destruct Hpol as [?|He]; [done|].
  rewrite He, dom_empty_L, bool_decide_eq_true_2 by done. eauto.
Qed.

Lemma unpin_singleton e a :
  (Author.pinned_entry a = Some e -> unpin {[e]} a = Author.set_pinned_entry None a) /\
  (Author.pinned_entry a <> Some e -> unpin {[e]} a = a).
Proof.
  unfold unpin, pins. destruct (Author.pinned_entry a) as [e'|]; [|done].
  case_bool_decide as He; [apply elem_of_singleton in He as ->|]; split; try done.
  intros [= ->]. destruct He. by apply elem_of_singleton.
Qed.

(** C8. Deleting the account [b], where the rule of [Entry.author] lets it
    go through, removes the row of [b], every memento that has [b] as
    holder or patient and every verification row of [b], and keeps the
    other rows of both tables; deleting the entry [e] removes its row and
    keeps every account, those that pinned [e] with [pinned_entry] set to
    null and the others as they were. *)
Theorem deletion_cascades (policy : on_delete) (db : DB) (b e : Z) :
  (policy = CASCADE \/ entries_of db b = ∅ ->
   exists db',
     Author_delete policy db b = (db', inr tt) /\
     rows (Author_objects db') !! b = None /\
     (forall k m,
         rows (Memento_objects db') !! k = Some m <->
         rows (Memento_objects db) !! k = Some m /\
         Memento.holder m <> b /\ Memento.patient m <> b) /\
     (forall k v,
         rows (UserVerification_objects db') !! k = Some v <->
         rows (UserVerification_objects db) !! k = Some v /\
         UserVerification.author v <> b)) /\
  (let db' := Entry_delete db e in
   rows (Entry_objects db') !! e = None /\
   forall k a,
     rows (Author_objects db) !! k = Some a ->
     (Author.pinned_entry a = Some e ->
      rows (Author_objects db') !! k = Some (Author.set_pinned_entry None a)) /\
     (Author.pinned_entry a <> Some e ->
      rows (Author_objects db') !! k = Some a)).
Proof.
  split.
  - intros Hpol. destruct (Author_delete_succeeds policy db b Hpol) as [es ->].
    eexists. split; [reflexivity|]. apply Author_delete_collected_spec.
  - intros db'. split.
    + unfold db'. simpl. apply map_lookup_filter_None. right.
      intros x _ Hne. simpl in Hne. apply Hne. by apply elem_of_singleton.
    + intros k a Hk. unfold db'. simpl. rewrite lookup_fmap, Hk. simpl.
      destruct (unpin_singleton e a) as [H1 H2].
      split; intros H; f_equal; auto.
Qed.

Lemma deletion_cascades_witness :
  let ops :=
    [AuthorSave sample.ali; AuthorSave sample.veli;
     EntrySave (sample.entry 2 (3 # 2));
     AuthorSave (Author.set_pinned_entry (Some 1) sample.ali1);
     MementoSave (sample.memento 1 2 "x");
     UserVerificationSave (sample.token 2 "t" 100)] in
  let db := run CASCADE ops in
  let a := Author.set_pinned_entry (Some 1) sample.ali1 in
  rows (Author_objects db) !! 1 = Some a /\
  Author.pinned_entry a = Some 1 /\
  rows (Author_objects (Entry_delete db 1)) !! 1 = Some sample.ali1 /\
  exists db',
    Author_delete CASCADE db 2 = (db', inr tt) /\
    rows (Memento_objects db') !! 1 = None /\
    rows (UserVerification_objects db') !! 1 = None.
Proof.
  intros ops db a.
  assert (Hrow : rows (Author_objects db) !! 1 = Some a) by (by vm_compute).
  split; [exact Hrow|]. split; [reflexivity|].
  destruct (deletion_cascades CASCADE db 2 1) as [Hdel [_ Hpin]].
  split; [exact (proj1 (Hpin 1 a Hrow) eq_refl)|].
  destruct (Hdel (or_introl eq_refl)) as (db' & E & _ & Hm & Hv).
  exists db'. split; [exact E|]. split.
  - destruct (rows (Memento_objects db') !! 1) as [m|] eqn:Em; [|done].
    apply Hm in Em as (Em & Hh & Hp).
    assert (Em' : rows (Memento_objects db) !! 1
                  = Some (with_pk 1 (sample.memento 1 2 "x"))) by (by vm_compute).
    rewrite Em' in Em. injection Em as <-. by destruct Hp.
  - destruct (rows (UserVerification_objects db') !! 1) as [v|] eqn:Ev; [|done].
    apply Hv in Ev as (Ev & Ha).
    assert (Ev' : rows (UserVerification_objects db) !! 1
                  = Some (with_pk 1 (sample.token 2 "t" 100))) by (by vm_compute).
    rewrite Ev' in Ev. injection Ev as <-. by destruct Ha.
Defined.

(** * Further properties *)

(** ** The handle *)

(** X1. The nick validator reports no error exactly on the strings made of
    a non-empty run of lowercase letters and spaces, with or without one
    final newline; on every other string it reports the one error
    [invalid]. *)
Theorem nick_validator_language (s : str) :
  (AuthorNickValidator.call s = [] <-> nick_shape s) /\
  (AuthorNickValidator.call s = ["invalid"%string] <-> ~ nick_shape s).
Proof.
  split; [apply AuthorNickValidator_accepts|apply AuthorNickValidator_rejects].
Qed.

Lemma nick_shape_nonempty s : nick_shape s -> s <> [].
Proof.
  intros (body & Hne & _ & [->| ->]); [done|].
  destruct body; discriminate.
Qed.

(** X2. Cleaning a handle returns it unchanged exactly when it has the shape
    the nick pattern accepts and at most 50 characters; a handle is never
    returned altered; and a refusal is a [ValidationError] whose codes are
    [blank] for the empty handle and otherwise [invalid], [max_length] or
    both. *)
Theorem username_clean_language (value : str) :
  (username_field.clean value = inr value <->
   nick_shape value /\ (length value <= 50)%nat) /\
  (forall v, username_field.clean value = inr v -> v = value) /\
  (forall e,
      username_field.clean value = inl e ->
      (value = [] /\ e = ValidationError ["blank"%string]) \/
      (value <> [] /\
       (e = ValidationError ["invalid"%string] \/
        e = ValidationError ["max_length"%string] \/
        e = ValidationError ["invalid"%string; "max_length"%string]))).
Proof.
  destruct (decide (value = [])) as [->|Hne].
  - split; [|split].
    + split; [discriminate|]. intros [Hs _]. by apply nick_shape_nonempty in Hs.
    + discriminate.
    + intros e [= <-]. by left.
  - rewrite username_clean_errors by done.
    unfold MaxLengthValidator, username_field.max_length.
    destruct (Z.ltb_spec 50 (Z.of_nat (length value))) as [Hlong|Hshort];
      destruct (AuthorNickValidator.call value) as [|c l] eqn:Ecall.
    + split; [|split]; simpl.
      * split; [discriminate|]. intros [_ Hlen]. lia.
      * discriminate.
      * intros e [= <-]. right. auto.
    + assert (Hinv : AuthorNickValidator.call value = ["invalid"%string]).
      { unfold AuthorNickValidator.call, RegexValidator in *.
        by destruct (re.search _ value). }
      rewrite Hinv in Ecall. injection Ecall as <- <-.
      split; [|split]; simpl.
      * split; [discriminate|]. intros [_ Hlen]. lia.
      * discriminate.
      * intros e [= <-]. right. auto.
    + apply AuthorNickValidator_accepts in Ecall.
      split; [|split]; simpl.
      * split; [intros _; split; [done|lia]|done].
      * by intros v [= <-].
      * discriminate.
    + assert (Hinv : AuthorNickValidator.call value = ["invalid"%string]).
      { unfold AuthorNickValidator.call, RegexValidator in *.
        by destruct (re.search _ value). }
      rewrite Hinv in Ecall. injection Ecall as <- <-.
      apply AuthorNickValidator_rejects in Hinv.
      split; [|split]; simpl.
      * split; [discriminate|]. by intros [Hs _].
      * discriminate.
      * intros e [= <-]. right. auto.
Qed.

(** ** Saving an account *)

Lemma set_id_saved (tbl : table Author.t) self :
  saved tbl self = Author.set_id (Some (save_key tbl self)) self.
Proof.
  unfold saved, save_key. destruct (pk self) as [k|] eqn:E; [|done].
  destruct self. simpl in *. by subst.
Qed.

(** X4. A save of an account that goes through returns the instance under
    its key, stores it as the row of that key, equal to the instance saved
    but for the key, and leaves every other account and the tables of
    mementos, verification rows, entries and categories as they were. *)
Theorem Author_save_stores (db db' : DB) (self self' : Author.t) :
  Author_save db self = (db', inr self') ->
  exists k,
    pk self' = Some k /\
    (pk self = None \/ pk self = Some k) /\
    self' = Author.set_id (Some k) self /\
    rows (Author_objects db') !! k = Some self' /\
    (forall j, j <> k ->
               rows (Author_objects db') !! j = rows (Author_objects db) !! j) /\
    Memento_objects db' = Memento_objects db /\
    UserVerification_objects db' = UserVerification_objects db /\
    Entry_objects db' = Entry_objects db /\
    Category_objects db' = Category_objects db /\
    Author_following db' = Author_following db.
Proof.
  rewrite Author_save_eq.
  destruct (Author_check db _ self); [discriminate|].
  set (K := save_key (Author_objects db) self).
  assert (Hpk : pk self = None \/ pk self = Some K).
  { unfold K, save_key. destruct (pk self); auto. }
  destruct (bool_decide (pk self = None)); intros [= <- <-];
    exists K; simpl;
    (split; [apply pk_saved_author|]); (split; [exact Hpk|]);
    (split; [apply set_id_saved|]); (split; [by rewrite lookup_insert_eq|]);
    (split; [intros j Hj; by rewrite lookup_insert_ne|]); done.
Qed.

Lemma Author_save_stores_witness :
  exists db' self' k,
    Author_save empty_db sample.ali = (db', inr self') /\
    pk self' = Some k /\
    self' = Author.set_id (Some k) sample.ali /\
    rows (Author_objects db') !! k = Some self'.
Proof.
  destruct (Author_save empty_db sample.ali) as [db' [e|self']] eqn:E;
    [by vm_compute in E|].
  destruct (Author_save_stores empty_db db' sample.ali self' E)
    as (k & Hk & _ & Hself & Hrow & _).
  by exists db', self', k.
Defined.

(** X5. Saving again the instance a save returned changes nothing: the save
    goes through, returns the same instance and leaves the database as the
    first save left it. *)
Theorem Author_save_again (db db' : DB) (self self' : Author.t) :
  Author_save db self = (db', inr self') ->
  Author_save db' self' = (db', inr self').
Proof.
  intros E. pose proof E as E0. rewrite Author_save_eq in E.
  destruct (Author_check db _ self) as [c|] eqn:Ec; [discriminate|].
  set (T := Author_objects db) in *.
  set (K := save_key T self) in *.
  set (x := saved T self) in *.
  assert (Hx : self' = x /\
               rows (Author_objects db') = <[K := x]> (rows T) /\
               sequence (Author_objects db') = Z.max (sequence T) K /\
               Entry_objects db' = Entry_objects db).
  { destruct (bool_decide (pk self = None)); by injection E as <- <-. }
  destruct Hx as (-> & Hrows & Hseq & Hent).
  assert (Hpk : pk x = Some K) by apply pk_saved_author.
  rewrite Author_save_eq.
  assert (HK : save_key (Author_objects db') x = K)
    by (unfold save_key; by rewrite Hpk).
  assert (Hsaved : saved (Author_objects db') x = x)
    by (unfold saved; by rewrite Hpk).
  rewrite HK, Hsaved, Hrows, delete_insert_eq.
  assert (Hcheck : Author_check db' (delete K (rows T)) x = None).
  { unfold x. rewrite Author_check_saved. rewrite <- Ec.
    unfold Author_check. by rewrite Hent. }
  rewrite Hcheck, Hpk, bool_decide_eq_false_2 by done.
  rewrite insert_insert_eq, Hseq.
  replace (Z.max (Z.max (sequence T) K) K) with (Z.max (sequence T) K) by lia.
  f_equal. rewrite <- Hrows, <- Hseq.
  destruct db' as [[r sq] ? ? ? ? ? ? ? ? ? ?]. reflexivity.
Qed.

Lemma Author_save_again_witness :
  exists db' self',
    Author_save empty_db sample.ali = (db', inr self') /\
    Author_save db' self' = (db', inr self').
Proof.
  destruct (Author_save empty_db sample.ali) as [db' [e|self']] eqn:E;
    [by vm_compute in E|].
  exists db', self'. split; [reflexivity|].
  exact (Author_save_again empty_db db' sample.ali self' E).
Defined.

(** X6. Saving an account, new or not, never removes a link to a category
    and never changes the categories an account that exists follows. *)
Theorem Author_save_keeps_follows (db : DB) (self : Author.t) (k : Z) :
  is_Some (rows (Author_objects db) !! k) ->
  Author_following_categories db ⊆ Author_following_categories (Author_save db self).1 /\
  following_categories (Author_save db self).1 k = following_categories db k.
Proof.
  intros Hk. rewrite Author_save_eq.
  destruct (Author_check db _ self); [done|].
  destruct (bool_decide (pk self = None)) eqn:Hnew; [|done].
  apply bool_decide_eq_true in Hnew. simpl. split.
  - intros l Hl. apply elem_of_m2m_add. by left.
  - apply set_eq. intros c. rewrite !elem_of_following_categories. simpl.
    rewrite elem_of_m2m_add. split; [|by left].
    intros [Hl|(o & _ & [= -> _])]; [done|].
    unfold save_key in Hk. rewrite Hnew, next_pk_fresh in Hk.
    by destruct Hk.
Qed.

Lemma Author_save_keeps_follows_witness :
  let db := (Author_save (Category_create empty_db 7) sample.ali).1 in
  let db' := (Author_save (Category_create db 9) sample.veli).1 in
  is_Some (rows (Author_objects (Category_create db 9)) !! 1) /\
  following_categories db' 1 = {[7]}.
Proof.
  intros db db'.
  assert (Hk : is_Some (rows (Author_objects (Category_create db 9)) !! 1))
    by (by vm_compute; eauto).
  split; [exact Hk|].
  unfold db'.
  rewrite (proj2 (Author_save_keeps_follows (Category_create db 9) sample.veli 1 Hk)).
  by vm_compute.
Defined.

(** ** Verification rows over time *)

(** X7. With the database unchanged, an account that is confirmed at one
    time is confirmed at every later time. *)
Theorem email_confirmed_stays
    (db : DB) (now later : datetime) (self : Author.t) :
  now <= later ->
  email_confirmed db now self = true ->
  email_confirmed db later self = true.
Proof.
  intros Hle. rewrite !email_confirmed_true. intros Hnow k v Hk Hfresh.
  apply (Hnow k v Hk). unfold fresh in *. lia.
Qed.

Lemma email_confirmed_stays_witness :
  let db := (Author_save empty_db sample.ali).1 in
  let db' := (UserVerification_save db (sample.token 1 "t" 100)).1 in
  let t := 101 + timedelta_hours 24 in
  t <= t + 5 /\
  email_confirmed db' t sample.ali1 = true /\
  email_confirmed db' (t + 5) sample.ali1 = true.
Proof.
  intros db db' t.
  assert (Hle : t <= t + 5) by lia.
  assert (Hnow : email_confirmed db' t sample.ali1 = true) by (by vm_compute).
  split; [exact Hle|]. split; [exact Hnow|].
  exact (email_confirmed_stays db' t (t + 5) sample.ali1 Hle Hnow).
Defined.

(** X8. Once the row of a token issued for an account is deleted, as the
    verification flow does when it consumes the token, the account is
    confirmed at every time. *)
Theorem email_confirmed_after_consumption
    (db : DB) (self : Author.t) (v : UserVerification.t) :
  pk self = Some (UserVerification.author v) ->
  has_pk (Author_objects db) (UserVerification.author v) = true ->
  exists db' v' k,
    UserVerification_save db v = (db', inr v') /\
    pk v' = Some k /\
    tokens_of (UserVerification_delete db' k) (UserVerification.author v) = ∅ /\
    forall now, email_confirmed (UserVerification_delete db' k) now self = true.
Proof.
  intros Hself Hpk.
  destruct (tokens_of_saved db v Hpk) as (db' & k & v' & E & Hk & _ & _ & _ & Hrows).
  exists db', v', k. split; [done|]. split; [done|].
  assert (Hnone : tokens_of (UserVerification_delete db' k)
                            (UserVerification.author v) = ∅).
  { apply map_empty. intros j.
    destruct (tokens_of _ _ !! j) as [w|] eqn:Ej; [|done].
    apply lookup_tokens_of in Ej as [Ej Ha]. simpl in Ej.
    apply lookup_delete_Some in Ej as [Hne Ej].
    assert (Hin : tokens_of db' (UserVerification.author v) !! j = Some w)
      by (by apply lookup_tokens_of).
    rewrite Hrows in Hin. apply lookup_singleton_Some in Hin as [<- _]. done. }
  split; [done|]. intros now. apply email_confirmed_true. intros j w.
  unfold userverification_set. by rewrite Hself, Hnone, lookup_empty.
Qed.

Lemma email_confirmed_after_consumption_witness :
  let db := (Author_save empty_db sample.ali).1 in
  let v := sample.token 1 "t" 100 in
  pk sample.ali1 = Some (UserVerification.author v) /\
  has_pk (Author_objects db) (UserVerification.author v) = true /\
  exists db' v' k,
    UserVerification_save db v = (db', inr v') /\
    pk v' = Some k /\
    email_confirmed (UserVerification_delete db' k) 100 sample.ali1 = true.
Proof.
  intros db v.
  assert (H1 : pk sample.ali1 = Some (UserVerification.author v)) by reflexivity.
  assert (H2 : has_pk (Author_objects db) (UserVerification.author v) = true)
    by (by vm_compute).
  split; [exact H1|]. split; [exact H2|].
  destruct (email_confirmed_after_consumption db sample.ali1 v H1 H2)
    as (db' & v' & k & E & Hk & _ & Hall).
  exists db', v', k. split; [exact E|]. split; [exact Hk|]. apply Hall.
Defined.

(** X9. Saving a verification instance that has no key leaves the rows of
    every account other than its author as they were, and with them the
    confirmation status of those accounts. *)
Theorem UserVerification_save_others
    (db : DB) (v : UserVerification.t) (a : Z) :
  pk v = None ->
  a <> UserVerification.author v ->
  tokens_of (UserVerification_save db v).1 a = tokens_of db a /\
  forall self now,
    pk self = Some a ->
    email_confirmed (UserVerification_save db v).1 now self
    = email_confirmed db now self.
Proof.
  intros Hpk Ha.
  assert (Hrows : tokens_of (UserVerification_save db v).1 a = tokens_of db a).
  { rewrite UserVerification_save_eq.
    set (db1 := UserVerification_delete_of db (UserVerification.author v)).
    set (T := UserVerification_objects db1).
    assert (Hcleared : forall j w,
               UserVerification.author w = a ->
               rows T !! j = Some w <->
               rows (UserVerification_objects db) !! j = Some w).
    { intros j w Hw. unfold T, db1. simpl. rewrite map_lookup_filter_Some. simpl.
      rewrite bool_decide_eq_false. split; [tauto|]. intros Hj. split; [done|].
      congruence. }
    apply map_eq. intros j. apply option_eq. intros w.
    rewrite !lookup_tokens_of.
    destruct (has_pk (Author_objects db) (UserVerification.author v)); simpl.
    - assert (HK : save_key T v = next_pk T) by (unfold save_key; by rewrite Hpk).
      rewrite HK. split.
      + intros [Hj Hw]. rewrite lookup_insert in Hj. case_decide as Hd.
        * injection Hj as <-. rewrite author_saved in Hw. congruence.
        * split; [|done]. by apply Hcleared.
      + intros [Hj Hw]. split; [|done]. apply Hcleared in Hj; [|done].
        rewrite lookup_insert_ne; [done|]. intros <-.
        by rewrite next_pk_fresh in Hj.
    - split; intros [Hj Hw]; (split; [|done]); by apply Hcleared. }
  split; [exact Hrows|]. intros self now Hself.
  unfold email_confirmed, userverification_set. by rewrite Hself, Hrows.
Qed.

Lemma UserVerification_save_others_witness :
  let db0 := (Author_save (Author_save empty_db sample.ali).1 sample.veli).1 in
  let db := (UserVerification_save db0 (sample.token 1 "t" 100)).1 in
  let v := sample.token 2 "u" 100 in
  pk v = None /\
  1 <> UserVerification.author v /\
  email_confirmed (UserVerification_save db v).1 100 sample.ali1 = false.
Proof.
  intros db0 db v.
  assert (H1 : pk v = None) by reflexivity.
  assert (H2 : 1 <> UserVerification.author v) by done.
  split; [exact H1|]. split; [exact H2|].
  rewrite (proj2 (UserVerification_save_others db v 1 H1 H2) sample.ali1 100 eq_refl).
  by vm_compute.
Defined.

(** ** Statistics *)

#[local] Instance date_created_desc_trans : Transitive date_created_desc.
Proof. intros x y z. unfold date_created_desc. lia. Qed.

#[local] Instance date_created_desc_total : Total date_created_desc.
Proof. intros x y. unfold date_created_desc. lia. Qed.

Lemma length_filter_weaken {A} (P Q : A -> Prop)
    `{!forall x, Decision (P x)} `{!forall x, Decision (Q x)} (l : list A) :
  (forall x, P x -> Q x) ->
  (length (filter P l) <= length (filter Q l))%nat.
Proof.
  intros HPQ. induction l as [|x l IH]; [done|].
  rewrite !filter_cons.
  destruct (decide (P x)) as [HP|HP]; destruct (decide (Q x)) as [HQ|HQ];
    simpl; try lia.
  by destruct HQ; apply HPQ.
Qed.

Lemma published_since_le pub db self (s1 s2 : datetime) :
  s1 <= s2 ->
  (length (published_since pub db self s2)
   <= length (published_since pub db self s1))%nat.
Proof.
  intros Hle. unfold published_since. apply length_filter_weaken.
  intros e. lia.
Qed.

(** X10. At every time the entries counted for the last day are among
    those of the last week, those among the ones of the last 30 days, and
    those among all published entries of the account. *)
Theorem entry_counts_nested
    (objects_published : Entry.t -> bool) (db : DB) (now : datetime)
    (self : Author.t) :
  (entry_count_day objects_published db now self
   <= entry_count_week objects_published db now self)%nat /\
  (entry_count_week objects_published db now self
   <= entry_count_month objects_published db now self)%nat /\
  (entry_count_month objects_published db now self
   <= entry_count objects_published db self)%nat.
Proof.
  unfold entry_count_day, entry_count_week, entry_count_month, entry_count.
  split; [|split].
  - apply published_since_le. unfold timedelta_days. lia.
  - apply published_since_le. unfold timedelta_days. lia.
  - unfold published_since. apply length_filter.
Qed.

(** [latest()] of a query set: a row with the latest date. *)
Lemma head_merge_sort_date l :
  match head (merge_sort date_created_desc l) with
  | Some x => x ∈ l /\ forall y, y ∈ l -> Entry.date_created y <= Entry.date_created x
  | None => l = []
  end.
Proof.
  pose proof (merge_sort_Permutation date_created_desc l) as Hperm.
  pose proof (Sorted_merge_sort date_created_desc l) as Hsorted.
  apply Sorted_StronglySorted in Hsorted; [|apply _].
  destruct (merge_sort date_created_desc l) as [|x l'] eqn:E; simpl.
  - by apply Permutation_nil_l in Hperm.
  - apply StronglySorted_inv in Hsorted as [_ Hall].
    split.
    + rewrite <- Hperm. by left.
    + intros y Hy. rewrite <- Hperm in Hy.
      apply elem_of_cons in Hy as [->|Hy]; [lia|].
      rewrite Forall_forall in Hall. by apply Hall.
Qed.

(** X11. [last_entry_date] is [None] exactly when the account has no
    published entry; otherwise it is the creation date of one of its
    published entries, and none of them is more recent. *)
Theorem last_entry_date_latest
    (objects_published : Entry.t -> bool) (db : DB) (self : Author.t) :
  let published := published_by objects_published db self in
  (last_entry_date objects_published db self = None <->
   entry_count objects_published db self = 0%nat) /\
  (forall d,
      last_entry_date objects_published db self = Some d ->
      (exists e, e ∈ published /\ Entry.date_created e = d) /\
      (forall e, e ∈ published -> Entry.date_created e <= d)).
Proof.
  intros published. unfold last_entry_date, entry_count. fold published.
  pose proof (head_merge_sort_date published) as Hhead.
  destruct (head (merge_sort date_created_desc published)) as [x|].
  - destruct Hhead as [Hx Hmax]. split.
    + split; [discriminate|]. intros Hlen.
      apply length_zero_iff_nil in Hlen. rewrite Hlen in Hx.
      by apply elem_of_nil in Hx.
    + intros d [= <-]. split; [by exists x|exact Hmax].
  - split; [by rewrite Hhead|discriminate].
Qed.

(** X12. The account has an entry counted for the last day exactly when
    its last entry date is at most one day old. *)
Theorem entry_count_day_last_entry
    (objects_published : Entry.t -> bool) (db : DB) (now : datetime)
    (self : Author.t) :
  (0 < entry_count_day objects_published db now self)%nat <->
  exists d, last_entry_date objects_published db self = Some d /\
            now - timedelta_days 1 <= d.
Proof.
  unfold entry_count_day, published_since, last_entry_date.
  set (published := published_by objects_published db self).
  pose proof (head_merge_sort_date published) as Hhead.
  split.
  - intros Hpos.
    destruct (filter _ published) as [|e l] eqn:Ef; [simpl in Hpos; lia|].
    assert (He : e ∈ filter (fun e => now - timedelta_days 1 <= Entry.date_created e)
                            published) by (rewrite Ef; by left).
    apply list_elem_of_filter in He as [Hdate He].
    destruct (head (merge_sort date_created_desc published)) as [x|].
    + destruct Hhead as [_ Hmax]. exists (Entry.date_created x).
      split; [done|]. specialize (Hmax e He). lia.
    + rewrite Hhead in He. by apply elem_of_nil in He.
  - intros (d & Hd & Hrecent).
    destruct (head (merge_sort date_created_desc published)) as [x|]; [|done].
    injection Hd as <-. destruct Hhead as [Hx _].
    assert (He : x ∈ filter (fun e => now - timedelta_days 1 <= Entry.date_created e)
                            published) by (by apply list_elem_of_filter).
    destruct (filter _ published); [by apply elem_of_nil in He|simpl; lia].
Qed.

(** ** Followers *)

Lemma lookup_followers db self k j a :
  pk self = Some k ->
  followers db self !! j = Some a <->
  rows (Author_objects db) !! j = Some a /\ (j, k) ∈ Author_following db.
Proof.
  intros Hpk. unfold followers. rewrite Hpk, map_lookup_filter_Some. tauto.
Qed.

(** X13. Following is directed: once [a] follows [b], [a] is among the
    followers of [b], and [b] is not among the followers of [a] unless [b]
    followed [a] before. *)
Theorem following_is_directed
    (db : DB) (a b : Z) (A B selfa selfb : Author.t) :
  rows (Author_objects db) !! a = Some A ->
  rows (Author_objects db) !! b = Some B ->
  pk selfa = Some a ->
  pk selfb = Some b ->
  a <> b ->
  (b, a) ∉ Author_following db ->
  followers (following_add db a b) selfb !! a = Some A /\
  followers (following_add db a b) selfa !! b = None.
Proof.
  intros HA HB Hpa Hpb Hne Hnot. split.
  - apply (lookup_followers _ selfb b); [done|]. simpl. split; [done|].
    apply elem_of_m2m_add. right. exists b. split; [by left|done].
  - destruct (followers _ selfa !! b) as [x|] eqn:E; [|done].
    apply (lookup_followers _ selfa a) in E as [_ Hl]; [|done]. simpl in Hl.
    apply elem_of_m2m_add in Hl as [Hl|(o & Ho & [= -> _])]; done.
Qed.

Lemma following_is_directed_witness :
  let db := (Author_save (Author_save empty_db sample.ali).1 sample.veli).1 in
  let veli2 := with_pk 2 sample.veli in
  rows (Author_objects db) !! 1 = Some sample.ali1 /\
  rows (Author_objects db) !! 2 = Some veli2 /\
  ((2, 1) ∉ Author_following db) /\
  followers (following_add db 1 2) veli2 !! 1 = Some sample.ali1 /\
  followers (following_add db 1 2) sample.ali1 !! 2 = None.
Proof.
  intros db veli2.
  assert (H1 : rows (Author_objects db) !! 1 = Some sample.ali1) by (by vm_compute).
  assert (H2 : rows (Author_objects db) !! 2 = Some veli2) by (by vm_compute).
  assert (H3 : (2, 1) ∉ Author_following db) by (by vm_compute).
  split; [exact H1|]. split; [exact H2|]. split; [exact H3|].
  apply (following_is_directed db 1 2 sample.ali1 veli2 sample.ali1 veli2);
    done.
Defined.

(** X14. After an account is deleted it is among the followers of no
    account and it has no followers: the rows of [following] go at both
    ends. *)
Theorem Author_delete_unfollows
    (policy : on_delete) (db : DB) (b : Z) :
  policy = CASCADE \/ entries_of db b = ∅ ->
  exists db',
    Author_delete policy db b = (db', inr tt) /\
    (forall l, l ∈ Author_following db' <->
               l ∈ Author_following db /\ l.1 <> b /\ l.2 <> b) /\
    (forall self, followers db' self !! b = None) /\
    (forall self, pk self = Some b -> followers db' self = ∅).
Proof.
  intros Hpol. destruct (Author_delete_succeeds policy db b Hpol) as [es ->].
  eexists. split; [reflexivity|].
  assert (Hlinks : forall l,
             l ∈ Author_following (Author_delete_collected b es db) <->
             l ∈ Author_following db /\ l.1 <> b /\ l.2 <> b).
  { intros l. simpl. rewrite elem_of_filter. tauto. }
  split; [exact Hlinks|]. split.
  - intros self. unfold followers.
    destruct (pk self) as [k|];
      apply map_lookup_filter_None; left; simpl; apply lookup_delete_eq.
  - intros self Hself. apply map_empty. intros j.
    destruct (followers _ self !! j) as [x|] eqn:E; [|done].
    apply (lookup_followers _ self b) in E as [_ Hl]; [|done].
    apply Hlinks in Hl as (_ & _ & Hl). done.
Qed.

Lemma Author_delete_unfollows_witness :
  let db0 := (Author_save (Author_save empty_db sample.ali).1 sample.veli).1 in
  let db := following_add db0 1 2 in
  followers db (with_pk 2 sample.veli) !! 1 = Some sample.ali1 /\
  exists db',
    Author_delete CASCADE db 1 = (db', inr tt) /\
    followers db' (with_pk 2 sample.veli) !! 1 = None.
Proof.
  intros db0 db. split; [by vm_compute|].
  destruct (Author_delete_unfollows CASCADE db 1 (or_introl eq_refl))
    as (db' & E & _ & Hgone & _).
  exists db'. split; [exact E|apply Hgone].
Defined.

(** ** References *)

Lemma Author_check_pinned db others self e :
  Author_check db others self = None ->
  Author.pinned_entry self = Some e ->
  is_Some (rows (Entry_objects db) !! e).
Proof.
  unfold Author_check, has_pk. intros Hc He.
  destruct (taken Author.username others self); [done|].
  destruct (taken Author.email others self); [done|].
  destruct (taken_nullable Author.pinned_entry others self); [done|].
  rewrite He in Hc. by case_bool_decide.
Qed.

Lemma Memento_check_refs db others self :
  Memento_check db others self = None ->
  is_Some (rows (Author_objects db) !! Memento.holder self) /\
  is_Some (rows (Author_objects db) !! Memento.patient self).
Proof.
  unfold Memento_check, has_pk. intros Hc.
  destruct (taken pair others self); [done|].
  do 2 case_bool_decide; simpl in Hc; done.
Qed.

Lemma Author_save_refs_ok db self : refs_ok db -> refs_ok (Author_save db self).1.
Proof.
  intros (HM & HT & HP). rewrite Author_save_eq.
  destruct (Author_check db _ self) eqn:Ec; [done|].
  assert (Hkeys : forall j,
             is_Some (rows (Author_objects db) !! j) ->
             is_Some (<[save_key (Author_objects db) self :=
                          saved (Author_objects db) self]>
                        (rows (Author_objects db)) !! j)).
  { intros j Hj. rewrite lookup_insert. by case_decide. }
  assert (Hpins : forall k a e,
             <[save_key (Author_objects db) self := saved (Author_objects db) self]>
               (rows (Author_objects db)) !! k = Some a ->
             Author.pinned_entry a = Some e ->
             is_Some (rows (Entry_objects db) !! e)).
  { intros k a e Hk He. rewrite lookup_insert in Hk. case_decide.
    - injection Hk as <-.
      destruct (saved_author_columns (Author_objects db) self) as (_ & _ & Hp).
      rewrite Hp in He. by eapply Author_check_pinned.
    - by eapply HP. }
  destruct (bool_decide (pk self = None)); simpl; (split; [|split]);
    try (intros k m Hk; destruct (HM k m Hk); split; by apply Hkeys);
    try (intros k v Hk; by apply Hkeys, (HT k v));
    exact Hpins.
Qed.

Lemma Entry_delete_collected_refs_ok es db :
  refs_ok db -> refs_ok (Entry_delete_collected es db).
Proof.
  intros (HM & HT & HP).
  assert (Hkeys : forall j,
             is_Some (rows (Author_objects db) !! j) ->
             is_Some ((unpin es <$> rows (Author_objects db)) !! j)).
  { intros j [a Hj]. rewrite lookup_fmap, Hj. simpl. eauto. }
  split; [|split]; simpl.
  - intros k m Hk. destruct (HM k m Hk). split; by apply Hkeys.
  - intros k v Hk. by apply Hkeys, (HT k v).
  - intros k a' e Hk He.
    apply lookup_fmap_Some in Hk as (a & <- & Hk).
    apply unpin_pinned in He as [He Hne].
    destruct (HP k a e Hk He) as [x Hx]. exists x.
    by apply map_lookup_filter_Some.
Qed.

Lemma Author_delete_collected_refs_ok b es db :
  refs_ok db -> refs_ok (Author_delete_collected b es db).
Proof.
  intros Hok. apply (Entry_delete_collected_refs_ok es) in Hok.
  destruct Hok as (HM & HT & HP). unfold Author_delete_collected.
  set (db1 := Entry_delete_collected es db) in *.
  split; [|split]; simpl.
  - intros k m Hk. apply map_lookup_filter_Some in Hk as [Hk Hsel]. simpl in Hsel.
    apply bool_decide_eq_false in Hsel.
    assert (Memento.holder m <> b /\ Memento.patient m <> b) as [Hh Hp] by tauto.
    destruct (HM k m Hk). rewrite !lookup_delete_ne by congruence. done.
  - intros k v Hk. apply map_lookup_filter_Some in Hk as [Hk Hsel]. simpl in Hsel.
    apply bool_decide_eq_false in Hsel.
    rewrite lookup_delete_ne by congruence. by apply (HT k v).
  - intros k a e Hk He. apply lookup_delete_Some in Hk as [_ Hk].
    by apply (HP k a e).
Qed.

Lemma Author_delete_refs_ok policy db b :
  refs_ok db -> refs_ok (Author_delete policy db b).1.
Proof.
  intros Hok. unfold Author_delete.
  destruct policy; [by apply Author_delete_collected_refs_ok|].
  destruct (bool_decide _); [by apply Author_delete_collected_refs_ok|done].
Qed.

Lemma UserVerification_save_refs_ok db self :
  refs_ok db -> refs_ok (UserVerification_save db self).1.
Proof.
  intros (HM & HT & HP). rewrite UserVerification_save_eq.
  assert (Hcleared : forall k v,
             rows (UserVerification_objects
                     (UserVerification_delete_of db (UserVerification.author self)))
               !! k = Some v ->
             is_Some (rows (Author_objects db) !! UserVerification.author v)).
  { intros k v Hk. simpl in Hk. apply map_lookup_filter_Some in Hk as [Hk _].
    by apply (HT k v). }
  destruct (has_pk (Author_objects db) (UserVerification.author self)) eqn:Hpk;
    (split; [exact HM|split; [|exact HP]]).
  - intros k v Hk.
    unfold set_UserVerification_objects in Hk.
    cbn [fst UserVerification_objects rows] in Hk.
    rewrite lookup_insert in Hk. case_decide.
    + injection Hk as <-. rewrite author_saved.
      unfold has_pk in Hpk. by apply bool_decide_eq_true in Hpk.
    + by apply (Hcleared k v).
  - exact Hcleared.
Qed.

Lemma Memento_save_refs_ok db self : refs_ok db -> refs_ok (Memento_save db self).1.
Proof.
  intros (HM & HT & HP). rewrite Memento_save_eq.
  destruct (Memento_check db _ self) eqn:Ec; [done|].
  split; [|split; [exact HT|exact HP]].
  intros k m Hk. simpl in Hk. rewrite lookup_insert in Hk. case_decide.
  - injection Hk as <-.
    destruct (saved_memento_columns (Memento_objects db) self) as (-> & -> & _).
    by eapply Memento_check_refs.
  - by apply (HM k m).
Qed.

Lemma Memento_upsert_refs_ok db h p body :
  refs_ok db -> refs_ok (Memento_upsert db h p body).1.
Proof.
  intros Hok.
  destruct (Memento_upsert_cases db h p body) as [E|[[e E]|[k E]]]; rewrite E.
  - by apply Memento_save_refs_ok.
  - by apply Memento_save_refs_ok.
  - by do 2 apply Memento_save_refs_ok.
Qed.

Lemma Entry_save_refs_ok db self : refs_ok db -> refs_ok (Entry_save db self).1.
Proof.
  intros (HM & HT & HP). unfold Entry_save. rewrite Model_save_eq.
  destruct (Entry_check db _ _); [done|].
  split; [exact HM|split; [exact HT|]].
  intros k a e Hk He. simpl. rewrite lookup_insert. case_decide; [eauto|].
  by apply (HP k a e).
Qed.

Lemma exec_refs_ok policy db o : refs_ok db -> refs_ok (exec policy db o).
Proof.
  intros Hok. destruct o; simpl.
  - by apply Author_save_refs_ok.
  - by apply Author_delete_refs_ok.
  - by apply UserVerification_save_refs_ok.
  - destruct Hok as (HM & HT & HP). split; [exact HM|split; [|exact HP]].
    intros j v Hj. simpl in Hj. apply lookup_delete_Some in Hj as [_ Hj].
    by apply (HT j v).
  - by apply Memento_save_refs_ok.
  - destruct Hok as (HM & HT & HP). split; [|split; [exact HT|exact HP]].
    intros j m Hj. simpl in Hj. apply lookup_delete_Some in Hj as [_ Hj].
    by apply (HM j m).
  - by apply Memento_upsert_refs_ok.
  - by apply Entry_save_refs_ok.
  - by apply Entry_delete_collected_refs_ok.
  - done.
Qed.

Lemma run_refs_ok policy ops : refs_ok (run policy ops).
Proof.
  apply run_invariant; [|apply exec_refs_ok].
  repeat split; intros *; simpl; by rewrite lookup_empty.
Qed.

(** X15. After every history the entry an account pins exists: deleting an
    entry never leaves a pin behind, and no save pins an entry that is not
    there. *)
Theorem pinned_entry_exists
    (policy : on_delete) (ops : list op) (k e : Z) (a : Author.t) :
  rows (Author_objects (run policy ops)) !! k = Some a ->
  Author.pinned_entry a = Some e ->
  is_Some (rows (Entry_objects (run policy ops)) !! e).
Proof.
  destruct (run_refs_ok policy ops) as (_ & _ & HP). apply HP.
Qed.

Lemma pinned_entry_exists_witness :
  let ops :=
    [AuthorSave sample.ali; EntrySave (sample.entry 1 (3 # 2));
     AuthorSave (Author.set_pinned_entry (Some 1) sample.ali1)] in
  let a := Author.set_pinned_entry (Some 1) sample.ali1 in
  rows (Author_objects (run CASCADE ops)) !! 1 = Some a /\
  Author.pinned_entry a = Some 1 /\
  is_Some (rows (Entry_objects (run CASCADE ops)) !! 1) /\
  Author.pinned_entry <$> rows (Author_objects (run CASCADE (ops ++ [EntryDelete 1]))) !! 1
  = Some None.
Proof.
  intros ops a.
  assert (H1 : rows (Author_objects (run CASCADE ops)) !! 1 = Some a)
    by (by vm_compute).
  split; [exact H1|]. split; [reflexivity|]. split; [|by vm_compute].
  exact (pinned_entry_exists CASCADE ops 1 1 a H1 eq_refl).
Defined.

(** X16. After every history the holder and the patient of every memento
    and the author of every verification row are accounts that exist. *)
Theorem rows_refer_to_accounts (policy : on_delete) (ops : list op) :
  let db := run policy ops in
  (forall k m,
      rows (Memento_objects db) !! k = Some m ->
      is_Some (rows (Author_objects db) !! Memento.holder m) /\
      is_Some (rows (Author_objects db) !! Memento.patient m)) /\
  (forall k v,
      rows (UserVerification_objects db) !! k = Some v ->
      is_Some (rows (Author_objects db) !! UserVerification.author v)).
Proof.
  intros db. destruct (run_refs_ok policy ops) as (HM & HT & _). by split.
Qed.

Lemma rows_refer_to_accounts_witness :
  let ops :=
    [AuthorSave sample.ali; AuthorSave sample.veli;
     MementoSave (sample.memento 1 2 "x");
     UserVerificationSave (sample.token 2 "t" 100)] in
  let db := run CASCADE ops in
  rows (Memento_objects db) !! 1 = Some (with_pk 1 (sample.memento 1 2 "x")) /\
  is_Some (rows (Author_objects db) !! 1) /\
  is_Some (rows (Author_objects db) !! 2) /\
  rows (Memento_objects (run CASCADE (ops ++ [AuthorDelete 2]))) !! 1 = None /\
  rows (UserVerification_objects (run CASCADE (ops ++ [AuthorDelete 2]))) !! 1 = None.
Proof.
  intros ops db.
  assert (H1 : rows (Memento_objects db) !! 1
               = Some (with_pk 1 (sample.memento 1 2 "x"))) by (by vm_compute).
  split; [exact H1|].
  destruct (proj1 (rows_refer_to_accounts CASCADE ops) 1 _ H1) as [Hh Hp].
  split; [exact Hh|]. split; [exact Hp|]. split; by vm_compute.
Defined.

(** X17. After every history the body of a stored memento can be rewritten:
    saving an instance with the key, holder and patient of the row goes
    through, replaces that row alone and leaves the pair its one row. *)
Theorem Memento_edit_body
    (policy : on_delete) (ops : list op) (k : Z) (m : Memento.t)
    (body : option str) :
  let db := run policy ops in
  let self :=
    {| Memento.id := Some k; Memento.body := body;
       Memento.holder := Memento.holder m; Memento.patient := Memento.patient m |} in
  rows (Memento_objects db) !! k = Some m ->
  exists db',
    Memento_save db self = (db', inr self) /\
    rows (Memento_objects db') = <[k := self]> (rows (Memento_objects db)) /\
    mementos_of db' (Memento.holder m) (Memento.patient m) = {[ k := self ]}.
Proof.
  intros db self Hk.
  destruct (run_refs_ok policy ops) as (HM & _ & _).
  destruct (HM k m Hk) as [Hh Hp].
  pose proof (run_mementos_ok policy ops) as Hok.
  destruct (Memento_save_written db self (Memento.holder m) (Memento.patient m))
    as (db' & E & Hrows).
  - done.
  - unfold has_pk. by apply bool_decide_eq_true.
  - unfold has_pk. by apply bool_decide_eq_true.
  - intros j m' Hne Hj Hpair. apply Hne.
    change (save_key (Memento_objects db) self) with k.
    apply (Hok j k m' m Hj Hk). by rewrite Hpair.
  - exists db'. split; [exact E|]. split; [|exact Hrows].
    rewrite Memento_save_eq in E.
    destruct (Memento_check db _ self); [discriminate|].
    by injection E as <-.
Qed.

Lemma Memento_edit_body_witness :
  let ops :=
    [AuthorSave sample.ali; AuthorSave sample.veli;
     MementoSave (sample.memento 1 2 "x")] in
  let db := run CASCADE ops in
  let self := with_pk 1 (sample.memento 1 2 "y") in
  rows (Memento_objects db) !! 1 = Some (with_pk 1 (sample.memento 1 2 "x")) /\
  exists db',
    Memento_save db self = (db', inr self) /\
    mementos_of db' 1 2 = {[ 1 := self ]}.
Proof.
  intros ops db self.
  assert (H1 : rows (Memento_objects db) !! 1
               = Some (with_pk 1 (sample.memento 1 2 "x"))) by (by vm_compute).
  split; [exact H1|].
  destruct (Memento_edit_body CASCADE ops 1 _ (Some (lit "y")) H1)
    as (db' & E & _ & Hrows).
  exists db'. split; [exact E|exact Hrows].
Defined.

(** X18. After every history, once an account is deleted its handle and
    its email are free: a new account with both can be saved. *)
Theorem deleted_handle_is_free
    (policy : on_delete) (ops : list op) (b : Z) (a : Author.t) :
  let db := run policy ops in
  rows (Author_objects db) !! b = Some a ->
  policy = CASCADE \/ entries_of db b = ∅ ->
  exists db' db'' self',
    Author_delete policy db b = (db', inr tt) /\
    Author_save db' (Author.new (Author.username a) (Author.email a))
    = (db'', inr self') /\
    Author.username self' = Author.username a /\
    Author.email self' = Author.email a.
Proof.
  intros db Hb Hpol.
  destruct (run_authors_ok policy ops) as (Hu & He & _).
  destruct (Author_delete_succeeds policy db b Hpol) as [es E].
  set (new := Author.new (Author.username a) (Author.email a)).
  set (db' := Author_delete_collected b es db) in *.
  assert (Hrows : forall k r,
             rows (Author_objects db') !! k = Some r ->
             exists r0, rows (Author_objects db) !! k = Some r0 /\ k <> b /\
                        Author.username r = Author.username r0 /\
                        Author.email r = Author.email r0).
  { intros k r Hk. unfold db' in Hk. simpl in Hk.
    apply lookup_delete_Some in Hk as [Hne Hk].
    apply lookup_fmap_Some in Hk as (r0 & <- & Hk).
    exists r0. by rewrite unpin_username, unpin_email. }
  assert (Hcheck : Author_check db'
                     (delete (save_key (Author_objects db') new)
                             (rows (Author_objects db'))) new = None).
  { unfold Author_check.
    assert (Hun : taken Author.username
                    (delete (save_key (Author_objects db') new)
                            (rows (Author_objects db'))) new = false).
    { apply taken_false. intros k r Hk Heq.
      apply lookup_delete_Some in Hk as [_ Hk].
      apply Hrows in Hk as (r0 & Hk & Hne & Hr & _).
      apply Hne. apply (Hu k b r0 a Hk Hb). by rewrite <- Hr. }
    assert (Hem : taken Author.email
                    (delete (save_key (Author_objects db') new)
                            (rows (Author_objects db'))) new = false).
    { apply taken_false. intros k r Hk Heq.
      apply lookup_delete_Some in Hk as [_ Hk].
      apply Hrows in Hk as (r0 & Hk & Hne & _ & Hr).
      apply Hne. apply (He k b r0 a Hk Hb). by rewrite <- Hr. }
    by rewrite Hun, Hem. }
  exists db'. rewrite E.
  pose proof (Author_save_eq db' new) as Esave. cbv zeta in Esave.
  rewrite Hcheck, bool_decide_eq_true_2 in Esave by done.
  eexists _, _. split; [reflexivity|]. split; [exact Esave|].
  by destruct (saved_author_columns (Author_objects db') new) as (-> & -> & _).
Qed.

Lemma deleted_handle_is_free_witness :
  let ops := [AuthorSave sample.ali; AuthorSave sample.veli] in
  let db := run CASCADE ops in
  rows (Author_objects db) !! 1 = Some sample.ali1 /\
  exists db' db'' self',
    Author_delete CASCADE db 1 = (db', inr tt) /\
    Author_save db' sample.ali = (db'', inr self') /\
    Author.username self' = lit "ali".
Proof.
  intros ops db.
  assert (H1 : rows (Author_objects db) !! 1 = Some sample.ali1) by (by vm_compute).
  split; [exact H1|].
  destruct (deleted_handle_is_free CASCADE ops 1 sample.ali1 H1 (or_introl eq_refl))
    as (db' & db'' & self' & E1 & E2 & Hu & _).
  exists db', db'', self'. split; [exact E1|]. split; [exact E2|exact Hu].
Defined.

(** ** Labels *)

Lemma lit_inj s1 s2 : lit s1 = lit s2 -> s1 = s2.
Proof.
  revert s2. induction s1 as [|c s1 IH]; intros [|c' s2] H; simpl in H;
    try done.
  injection H as Hc Hs. f_equal; [|by apply IH].
  by rewrite <- (ascii_N_embedding c), Hc, ascii_N_embedding.
Qed.

Lemma str_of_int_inj z1 z2 : str_of_int z1 = str_of_int z2 -> z1 = z2.
Proof.
  intros H. apply lit_inj in H.
  assert (Hnil : forall z, Z.to_int z <> Pos Nil /\ Z.to_int z <> Neg Nil).
  { intros [|p|p]; split; simpl; try discriminate;
      intros [= E]; by apply (DecimalPos.Unsigned.to_uint_nonnil p). }
  assert (E : Some (Z.to_int z1) = Some (Z.to_int z2)).
  { destruct (Hnil z1), (Hnil z2).
    rewrite <- (NilZero.isi (Z.to_int z1)), <- (NilZero.isi (Z.to_int z2)) by done.
    by rewrite H. }
  injection E as E.
  by rewrite <- (DecimalZ.of_to z1), <- (DecimalZ.of_to z2), E.
Qed.

Lemma uint_chars d : Forall numeral_char (lit (NilEmpty.string_of_uint d)).
Proof.
  induction d; simpl; constructor; try done;
    right; change (N_of_ascii _) with 48%N || change (N_of_ascii _) with 49%N
    || change (N_of_ascii _) with 50%N || change (N_of_ascii _) with 51%N
    || change (N_of_ascii _) with 52%N || change (N_of_ascii _) with 53%N
    || change (N_of_ascii _) with 54%N || change (N_of_ascii _) with 55%N
    || change (N_of_ascii _) with 56%N || change (N_of_ascii _) with 57%N; lia.
Qed.

Lemma str_of_int_chars z : Forall numeral_char (str_of_int z).
Proof.
  unfold str_of_int, NilZero.string_of_int, NilZero.string_of_uint.
  assert (Hu : forall d,
             Forall numeral_char
               (lit match d with Nil => "0"%string
                    | _ => NilEmpty.string_of_uint d end)).
  { intros d. destruct d; try apply uint_chars.
    simpl. constructor; [|constructor].
    right. change (N_of_ascii "0") with 48%N. lia. }
  destruct (Z.to_int z) as [d|d]; [apply Hu|].
  simpl. constructor; [by left|apply Hu].
Qed.

Lemma split_at_last_colon (u1 u2 t1 t2 : str) :
  58%N ∉ t1 -> 58%N ∉ t2 ->
  u1 ++ 58%N :: t1 = u2 ++ 58%N :: t2 ->
  u1 = u2 /\ t1 = t2.
Proof.
  intros H1 H2. revert u2.
  induction u1 as [|c u1 IH]; intros [|c' u2] E; simpl in E.
  - by injection E.
  - injection E as _ E. destruct H1. rewrite E.
    apply elem_of_app. right. by left.
  - injection E as _ E. destruct H2. rewrite <- E.
    apply elem_of_app. right. by left.
  - injection E as -> E. destruct (IH u2 E) as [-> ->]. done.
Qed.

Lemma colon_not_numeral (t : str) : Forall numeral_char t -> 58%N ∉ t.
Proof.
  intros Hall Hin. rewrite Forall_forall in Hall.
  destruct (Hall _ Hin) as [H|H]; [discriminate|lia].
Qed.

Lemma colon_not_in_id (i : option Z) :
  58%N ∉ match i with Some k => str_of_int k | None => lit "None" end.
Proof.
  destruct i as [k|]; [apply colon_not_numeral, str_of_int_chars|].
  intros Hin. apply list_elem_of_In in Hin. simpl in Hin.
  repeat (destruct Hin as [Hin|Hin]; [discriminate|]). done.
Qed.

(** X19. The label of an account tells its handle and its key: two
    instances with the same label have the same handle and the same [id],
    whatever characters the handle holds. *)
Theorem Author_str_inj (a1 a2 : Author.t) :
  Author_str a1 = Author_str a2 ->
  Author.username a1 = Author.username a2 /\ Author.id a1 = Author.id a2.
Proof.
  unfold Author_str. change (lit ":") with [58%N]. simpl. intros E.
  apply split_at_last_colon in E as [Hu Hi]; try apply colon_not_in_id.
  split; [exact Hu|].
  destruct (Author.id a1) as [k1|], (Author.id a2) as [k2|]; try done.
  - f_equal. by apply str_of_int_inj.
  - pose proof (str_of_int_chars k1) as Hc. rewrite Hi in Hc.
    apply Forall_cons in Hc as [[H|H] _]; [discriminate|].
    change (N_of_ascii "N") with 78%N in H. lia.
  - pose proof (str_of_int_chars k2) as Hc. rewrite <- Hi in Hc.
    apply Forall_cons in Hc as [[H|H] _]; [discriminate|].
    change (N_of_ascii "N") with 78%N in H. lia.
Qed.

Lemma Author_str_inj_witness :
  let a1 := sample.ali1 in
  let a2 := Author.set_pinned_entry (Some 1) sample.ali1 in
  Author_str a1 = lit "ali:1" /\
  Author_str a1 = Author_str a2 /\
  Author.username a1 = Author.username a2 /\ Author.id a1 = Author.id a2.
Proof.
  intros a1 a2.
  assert (E : Author_str a1 = Author_str a2) by (by vm_compute).
  split; [by vm_compute|]. split; [exact E|].
  exact (Author_str_inj a1 a2 E).
Defined.

(** ** Instances of the properties without a premise of their own *)

Lemma username_clean_language_witness :
  let good := lit "ali veli" in
  let bad := lit "Ali" in
  username_field.clean good = inr good /\
  (nick_shape good /\ (length good <= 50)%nat) /\
  username_field.clean bad = inl (ValidationError ["invalid"%string]) /\
  ~ nick_shape bad.
Proof.
  intros good bad.
  assert (Hgood : username_field.clean good = inr good) by (by vm_compute).
  assert (Hbad : username_field.clean bad = inl (ValidationError ["invalid"%string]))
    by (by vm_compute).
  split; [exact Hgood|].
  split; [exact (proj1 (proj1 (username_clean_language good)) Hgood)|].
  split; [exact Hbad|].
  intros Hs.
  assert (Hlen : (length bad <= 50)%nat) by (vm_compute; lia).
  pose proof (proj2 (proj1 (username_clean_language bad)) (conj Hs Hlen)) as E.
  rewrite Hbad in E. discriminate.
Defined.

Lemma last_entry_date_latest_witness :
  let e1 := {| Entry.id := None; Entry.author := 1; Entry.vote_rate := 0;
               Entry.date_created := 10 |} in
  let e2 := {| Entry.id := None; Entry.author := 1; Entry.vote_rate := 0;
               Entry.date_created := 30 |} in
  let db := run CASCADE [AuthorSave sample.ali; EntrySave e2; EntrySave e1] in
  last_entry_date (fun _ => true) db sample.ali1 = Some 30 /\
  (exists e, e ∈ published_by (fun _ => true) db sample.ali1 /\
             Entry.date_created e = 30) /\
  entry_count (fun _ => true) db sample.ali1 = 2%nat.
Proof.
  intros e1 e2 db.
  assert (E : last_entry_date (fun _ => true) db sample.ali1 = Some 30)
    by (by vm_compute).
  split; [exact E|]. split; [|by vm_compute].
  exact (proj1 (proj2 (last_entry_date_latest (fun _ => true) db sample.ali1) 30 E)).
Defined.
